(** * Expiring pages: a shallow embedding of [main.py]

    The program is a FastAPI service that stores HTML pages in the MongoDB
    collection [db["page"]] under a random slug, serves them until their
    time-to-live has elapsed, and deletes expired pages together with the
    asset files they reference, either on access ([get_page], [view_page])
    or in a periodic sweep ([startup_cleanup_task.cleanup_loop]).

    The embedding keeps the shape of the source: handlers are computations
    in a state-and-exception monad over a [world] made of the collection,
    the filesystem and a log of the mutating calls; the clock reading and
    the bytes drawn from [os.urandom] are inputs of each handler. *)

From Stdlib Require Import ZArith Ascii String List Lia DecimalString.
From Stdlib.Strings Require Import Byte.
From stdpp Require Import base decidable option list gmap strings.

Local Open Scope Z_scope.
Local Open Scope string_scope.

(** ** Strings and paths *)

Module Str.

(** [s.lstrip(c)] for a single character [c]. *)
Fixpoint lstrip (c : ascii) (s : string) : string :=
  match s with
  | EmptyString => EmptyString
  | String a s' => if Ascii.eqb a c then lstrip c s' else s
  end.

(** [s.rstrip(c)] for a single character [c]. *)
Fixpoint rstrip (c : ascii) (s : string) : string :=
  match s with
  | EmptyString => EmptyString
  | String a s' =>
      match rstrip c s' with
      | EmptyString => if Ascii.eqb a c then EmptyString else String a EmptyString
      | r => String a r
      end
  end.

(** [s[:n]] for [n >= 0]. *)
Fixpoint take (n : nat) (s : string) : string :=
  match n, s with
  | O, _ => EmptyString
  | S _, EmptyString => EmptyString
  | S n', String a s' => String a (take n' s')
  end.

Fixpoint filter (f : ascii -> bool) (s : string) : string :=
  match s with
  | EmptyString => EmptyString
  | String a s' => if f a then String a (filter f s') else filter f s'
  end.

Fixpoint forallb (f : ascii -> bool) (s : string) : bool :=
  match s with
  | EmptyString => true
  | String a s' => f a && forallb f s'
  end.

Definition startswith (c : ascii) (s : string) : bool :=
  match s with
  | String a _ => Ascii.eqb a c
  | EmptyString => false
  end.

Fixpoint endswith (c : ascii) (s : string) : bool :=
  match s with
  | EmptyString => false
  | String a EmptyString => Ascii.eqb a c
  | String _ s' => endswith c s'
  end.

(** Python truthiness of a string: non-empty. *)
Definition truthy (s : string) : bool :=
  match s with
  | EmptyString => false
  | String _ _ => true
  end.

(** The characters matched by the class [A-Za-z0-9] of [re]. *)
Definition alnum (a : ascii) : bool :=
  let n := N_of_ascii a in
  ((48 <=? n) && (n <=? 57) || (65 <=? n) && (n <=? 90)
   || (97 <=? n) && (n <=? 122))%N.

End Str.

Module Posix.

Definition sep : ascii := "/"%char.

(** [os.path.join(a, b)] of [posixpath]. *)
Definition join (a b : string) : string :=
  if Str.startswith sep b then b
  else if negb (Str.truthy a) || Str.endswith sep a then a ++ b
  else a ++ String sep b.

(** [os.path.basename(p)]: what follows the last separator. *)
Fixpoint basename (p : string) : string :=
  match p with
  | EmptyString => EmptyString
  | String a p' =>
      if Ascii.eqb a sep then basename p'
      else
        (* [a] belongs to the last component iff no separator follows *)
        if Str.forallb (fun x => negb (Ascii.eqb x sep)) p' then p
        else basename p'
  end.

End Posix.

(** ** [secrets.token_urlsafe] *)

Module Secrets.

Definition alphabet : list ascii :=
  list_ascii_of_string
    "ABCDEFGHIJKLMNOPQRSTUVWXYZabcdefghijklmnopqrstuvwxyz0123456789-_".

Definition digit (i : N) : ascii :=
  nth (N.to_nat i) alphabet "A"%char.

Definition pad : ascii := "="%char.

(** [base64.urlsafe_b64encode]: three bytes give four digits; a last group
    of one or two bytes is padded with [=]. *)
Fixpoint urlsafe_b64encode (bs : list byte) : string :=
  match bs with
  | [] => EmptyString
  | [a] =>
      let x := Byte.to_N a in
      String (digit (N.shiftr x 2))
        (String (digit (N.shiftl (N.land x 3) 4))
           (String pad (String pad EmptyString)))
  | [a; b] =>
      let x := Byte.to_N a in
      let y := Byte.to_N b in
      String (digit (N.shiftr x 2))
        (String (digit (N.lor (N.shiftl (N.land x 3) 4) (N.shiftr y 4)))
           (String (digit (N.shiftl (N.land y 15) 2))
              (String pad EmptyString)))
  | a :: b :: c :: rest =>
      let x := Byte.to_N a in
      let y := Byte.to_N b in
      let z := Byte.to_N c in
      String (digit (N.shiftr x 2))
        (String (digit (N.lor (N.shiftl (N.land x 3) 4) (N.shiftr y 4)))
           (String (digit (N.lor (N.shiftl (N.land y 15) 2) (N.shiftr z 6)))
              (String (digit (N.land z 63)) (urlsafe_b64encode rest))))
  end.

(** [token_urlsafe(nbytes)], given the [nbytes] bytes that [os.urandom]
    returned: the encoding with its padding stripped. *)
Definition token_urlsafe (urandom : list byte) : string :=
  Str.rstrip pad (urlsafe_b64encode urandom).

End Secrets.

(** ** Data model *)

(** A document of the collection [db["page"]], as [create_page] builds it.
    Timestamps are [datetime] values in UTC, counted in microseconds, the
    resolution of [datetime]; [_id] is the ObjectId that [insert_one]
    assigns. *)
Module Doc.
Record t := mk {
  _id : nat;
  slug : string;
  html : string;
  created_at : Z;
  expires_at : Z;
  assets : list string
}.
End Doc.

Global Instance doc_eq_dec : EqDecision Doc.t.
Proof. solve_decision. Defined.

(** The request body of [POST /api/pages]. *)
Module PageCreate.
Record t := mk {
  html : string;
  ttl_seconds : option Z;
  assets : option (list string)
}.

(** The bounds [Field(..., ge=60, le=86400)] that the framework checks
    before the handler runs; they do not apply to an absent value. *)
Definition validated (p : t) : Prop :=
  match ttl_seconds p with
  | Some s => 60 <= s <= 86400
  | None => True
  end.
End PageCreate.

(** The dictionary that [create_page] returns. [expires_at] stands for its
    [isoformat()] rendering. *)
Module Created.
Record t := mk {
  slug : string;
  url : string;
  expires_at : Z;
  ttl_seconds : Z
}.
End Created.

(** The dictionary that [get_page] returns. *)
Module PageData.
Record t := mk {
  slug : string;
  html : string;
  expires_at : Z;
  remaining_seconds : Z;
  assets : list string
}.
End PageData.

(** What [view_page] returns. The page of a live record is a fixed template
    with two holes, the stored HTML and the remaining seconds; the expired
    notice is a constant. *)
Module HTMLResponse.
Inductive body :=
| ExpiredNotice
| SharedContent (content_html : string) (remaining : Z).

Record t := mk {
  status_code : Z;
  content : body
}.
End HTMLResponse.

(** Modelled from the spec: the module [database] that provides [db] is not
    part of the sources. The collection is the keyed store of section 4.2:
    documents in insertion order, each with the identity [insert_one] gave
    it and read back as it was stored; [next_oid] is the source of fresh
    identities. The calls the program makes on it are in [Db] below. *)
Record collection := {
  documents : list Doc.t;
  next_oid : nat
}.

(** The files the process sees: its working directory, the paths that are
    regular files, and the paths whose removal the system refuses. *)
Record filesystem := {
  cwd : string;
  files : gset string;
  denied : gset string
}.

(** The calls that change the store or the filesystem, in program order. *)
Inductive effect :=
| InsertOne (d : Doc.t)
| DeleteOne (oid : nat)
| DeleteMany (oids : list nat)
| OsRemove (path : string).

Record world := {
  page : collection;
  disk : filesystem;
  log : list effect
}.

Inductive exn :=
| HTTPException (status_code : Z) (detail : string)
| FileNotFoundError (path : string)
| PermissionError (path : string).

(** ** The monad of handlers *)

(** A computation returns, raises, or never comes back ([Hang], for the
    [while True] of [generate_slug]); effects made before a [Raise] stay. *)
Inductive outcome (A : Type) :=
| Return (a : A)
| Raise (e : exn)
| Hang.
Arguments Return {A} a.
Arguments Raise {A} e.
Arguments Hang {A}.

Definition M (A : Type) : Type := world -> outcome A * world.

Definition ret {A} (a : A) : M A := fun w => (Return a, w).

Definition raise {A} (e : exn) : M A := fun w => (Raise e, w).

Definition hang {A} : M A := fun w => (Hang, w).

Definition bind {A B} (c : M A) (k : A -> M B) : M B :=
  fun w =>
    match c w with
    | (Return a, w') => k a w'
    | (Raise e, w') => (Raise e, w')
    | (Hang, w') => (Hang, w')
    end.

Notation "x <- c ;; k" := (bind c (fun x => k))
  (at level 100, c at next level, right associativity).
Notation "c ;; k" := (bind c (fun _ => k))
  (at level 100, right associativity).

(** [try: body except Exception: handler]. *)
Definition try_except {A} (body : M A) (handler : exn -> M A) : M A :=
  fun w =>
    match body w with
    | (Raise e, w') => handler e w'
    | r => r
    end.

(** [for x in xs: body x]. *)
Fixpoint for_each {A} (xs : list A) (body : A -> M unit) : M unit :=
  match xs with
  | [] => ret tt
  | x :: xs' => body x ;; for_each xs' body
  end.

Definition emit (e : effect) : M unit :=
  fun w => (Return tt, {| page := page w; disk := disk w; log := log w ++ [e] |}).

Definition set_documents (ds : list Doc.t) (n : nat) : M unit :=
  fun w => (Return tt,
            {| page := {| documents := ds; next_oid := n |};
               disk := disk w; log := log w |}).

Definition set_files (fs : gset string) : M unit :=
  fun w => (Return tt,
            {| page := page w;
               disk := {| cwd := cwd (disk w); files := fs;
                          denied := denied (disk w) |};
               log := log w |}).

(** ** The store *)

(** Drops the first document with the given identity. *)
Fixpoint drop_first (oid : nat) (ds : list Doc.t) : list Doc.t :=
  match ds with
  | [] => []
  | d :: ds' => if decide (Doc._id d = oid) then ds' else d :: drop_first oid ds'
  end.

Module Db.

(** [db["page"].find_one({"slug": s})] *)
Definition find_one (s : string) : M (option Doc.t) :=
  fun w => (Return (head (filter (fun d => Doc.slug d = s) (documents (page w)))), w).

(** [db["page"].count_documents({"slug": s})] *)
Definition count_documents (s : string) : M nat :=
  fun w => (Return (length (filter (fun d => Doc.slug d = s) (documents (page w)))), w).

(** [db["page"].insert_one(doc)]: the document gets a fresh [_id]. *)
Definition insert_one (doc : nat -> Doc.t) : M unit :=
  fun w =>
    let d := doc (next_oid (page w)) in
    (emit (InsertOne d) ;;
     set_documents (documents (page w) ++ [d]) (S (next_oid (page w)))) w.

(** [db["page"].delete_one({"_id": oid})]; an absent identity is no error. *)
Definition delete_one (oid : nat) : M unit :=
  fun w =>
    (emit (DeleteOne oid) ;;
     set_documents (drop_first oid (documents (page w))) (next_oid (page w))) w.

(** [list(db["page"].find({"expires_at": {"$lte": now}}))] *)
Definition find_expired (now : Z) : M (list Doc.t) :=
  fun w => (Return (filter (fun d => Doc.expires_at d <= now) (documents (page w))), w).

(** [db["page"].delete_many({"_id": {"$in": oids}})] *)
Definition delete_many (oids : list nat) : M unit :=
  fun w =>
    (emit (DeleteMany oids) ;;
     set_documents (filter (fun d => Doc._id d ∉ oids) (documents (page w)))
                   (next_oid (page w))) w.

End Db.

(** ** The filesystem *)

Module Os.

Definition getcwd : M string := fun w => (Return (cwd (disk w)), w).

(** [os.path.isfile(path)] *)
Definition isfile (path : string) : M bool :=
  fun w => (Return (bool_decide (path ∈ files (disk w))), w).

(** [os.remove(path)]: raises when the file is missing or may not be
    removed. *)
Definition remove (path : string) : M unit :=
  fun w =>
    (emit (OsRemove path) ;;
     if bool_decide (path ∈ files (disk w)) then
       if bool_decide (path ∈ denied (disk w)) then raise (PermissionError path)
       else set_files (files (disk w) ∖ {[path]})
     else raise (FileNotFoundError path)) w.

End Os.

(** ** The program *)

Definition DEFAULT_TTL_SECONDS : Z := 600.

(** [UPLOAD_DIR = os.path.join(os.getcwd(), "uploads")], evaluated when the
    module is loaded; the program never changes its working directory. *)
Definition UPLOAD_DIR : M string :=
  root <- Os.getcwd ;; ret (Posix.join root "uploads").

(** [timedelta(seconds=s)], in microseconds. *)
Definition timedelta (seconds : Z) : Z := seconds * 1000000.

(** [int(td.total_seconds())]: the whole seconds of a duration, truncated
    towards zero. [total_seconds()] is a float; the division is exact
    enough for the truncation as long as the duration is far below 2^53
    microseconds, as the at most 86400 seconds of a live record are. *)
Definition total_seconds (td : Z) : Z := Z.quot td 1000000.

(** [x or default] on an optional integer: [None] and [0] are falsy. *)
Definition or_int (x : option Z) (default : Z) : Z :=
  match x with
  | Some 0 => default
  | Some v => v
  | None => default
  end.

(** [x or []] on an optional list. *)
Definition or_list {A} (x : option (list A)) : list A :=
  match x with
  | Some l => l
  | None => []
  end.

(** Python truthiness of a list. *)
Definition nonempty {A} (l : list A) : bool :=
  match l with
  | [] => false
  | _ :: _ => true
  end.

(** The body of the loops over [doc.get("assets", []) or []]; the same
    statements occur in [cleanup_loop] (lines 54-63), [get_page]
    (lines 182-190) and [view_page] (lines 213-221). *)
Definition remove_asset (asset : string) : M unit :=
  let relative := Str.lstrip "/" asset in
  root <- Os.getcwd ;;
  let path := Posix.join root relative in
  found <- Os.isfile path ;;
  path <- (if negb found then
             uploads <- UPLOAD_DIR ;;
             ret (Posix.join uploads (Posix.basename relative))
           else ret path) ;;
  try_except
    (present <- Os.isfile path ;;
     if present then Os.remove path else ret tt)
    (fun _ => ret tt).

(** [generate_slug(length)]. Each turn of the loop consumes the [length]
    bytes that [secrets.token_urlsafe] draws from [os.urandom]; [urandom]
    lists the draws in order, and the loop hangs when none of them is
    accepted. *)
Fixpoint generate_slug (length : nat) (urandom : list (list byte)) : M string :=
  match urandom with
  | [] => hang
  | bytes :: urandom' =>
      let slug := Secrets.token_urlsafe bytes in
      let slug := Str.take length (Str.filter Str.alnum slug) in
      count <- Db.count_documents slug ;;
      if Str.truthy slug && Nat.eqb count 0 then ret slug
      else generate_slug length urandom'
  end.

(** [POST /api/pages] *)
Definition create_page (payload : PageCreate.t) (now : Z)
    (urandom : list (list byte)) : M Created.t :=
  let ttl := or_int (PageCreate.ttl_seconds payload) DEFAULT_TTL_SECONDS in
  let expires_at := now + timedelta ttl in
  slug <- generate_slug 8 urandom ;;
  Db.insert_one (fun oid =>
    {| Doc._id := oid;
       Doc.slug := slug;
       Doc.html := PageCreate.html payload;
       Doc.created_at := now;
       Doc.expires_at := expires_at;
       Doc.assets := or_list (PageCreate.assets payload) |}) ;;
  ret {| Created.slug := slug;
         Created.url := "/p/" ++ slug;
         Created.expires_at := expires_at;
         Created.ttl_seconds := ttl |}.

(** [GET /api/pages/{slug}] *)
Definition get_page (slug : string) (now : Z) : M PageData.t :=
  doc <- Db.find_one slug ;;
  match doc with
  | None => raise (HTTPException 404 "Not found")
  | Some doc =>
      if bool_decide (Doc.expires_at doc <= now) then
        Db.delete_one (Doc._id doc) ;;
        for_each (Doc.assets doc) remove_asset ;;
        raise (HTTPException 410 "Expired")
      else
        let remaining := total_seconds (Doc.expires_at doc - now) in
        ret {| PageData.slug := Doc.slug doc;
               PageData.html := Doc.html doc;
               PageData.expires_at := Doc.expires_at doc;
               PageData.remaining_seconds := Z.max 0 remaining;
               PageData.assets := Doc.assets doc |}
  end.

(** [GET /p/{slug}] *)
Definition view_page (slug : string) (now : Z) : M HTMLResponse.t :=
  doc <- Db.find_one slug ;;
  match doc with
  | None => raise (HTTPException 404 "Not found")
  | Some doc =>
      if bool_decide (Doc.expires_at doc <= now) then
        Db.delete_one (Doc._id doc) ;;
        for_each (Doc.assets doc) remove_asset ;;
        ret {| HTMLResponse.status_code := 410;
               HTMLResponse.content := HTMLResponse.ExpiredNotice |}
      else
        let remaining := total_seconds (Doc.expires_at doc - now) in
        ret {| HTMLResponse.status_code := 200;
               HTMLResponse.content :=
                 HTMLResponse.SharedContent (Doc.html doc) remaining |}
  end.

(** The three steps of one turn of [cleanup_loop]: the query (line 48), the
    removal of the assets (lines 51-63) and the deletion (line 65). *)
Definition sweep_fetch (now : Z) : M (list Doc.t) := Db.find_expired now.

Definition sweep_assets (expired : list Doc.t) : M unit :=
  for_each expired (fun doc => for_each (Doc.assets doc) remove_asset).

Definition sweep_delete (expired : list Doc.t) : M unit :=
  Db.delete_many (Doc._id <$> expired).

(** One turn of [while True] in [cleanup_loop], up to the [sleep]. *)
Definition cleanup_cycle (now : Z) : M unit :=
  try_except
    (expired <- sweep_fetch now ;;
     if nonempty expired then
       sweep_assets expired ;;
       sweep_delete expired
     else ret tt)
    (fun _ => ret tt).

(** ** Runs of the service *)

Inductive request :=
| CreatePage (payload : PageCreate.t) (urandom : list (list byte))
| GetPage (slug : string)
| ViewPage (slug : string)
| Sweep.

(** A request together with the clock reading it makes. *)
Definition event : Type := Z * request.

Definition exec {A} (c : M A) (w : world) : world := snd (c w).

Definition step (e : event) (w : world) : world :=
  match e with
  | (now, CreatePage payload urandom) => exec (create_page payload now urandom) w
  | (now, GetPage slug) => exec (get_page slug now) w
  | (now, ViewPage slug) => exec (view_page slug now) w
  | (now, Sweep) => exec (cleanup_cycle now) w
  end.

Definition run (es : list event) (w : world) : world :=
  fold_left (fun w e => step e w) es w.

(** One turn of the sweep with the requests that other threads serve
    between its steps: [during_assets] after the query, [before_delete]
    after the assets are removed. *)
Definition interleaved_cycle (now : Z) (during_assets before_delete : list event)
    (w : world) : world :=
  match sweep_fetch now w with
  | (Return expired, w1) =>
      if nonempty expired then
        let w2 := run during_assets w1 in
        let w3 := exec (sweep_assets expired) w2 in
        let w4 := run before_delete w3 in
        exec (sweep_delete expired) w4
      else run before_delete (run during_assets w1)
  | (_, w1) => w1
  end.

(** The status a client sees. *)
Definition status_of_exn (e : exn) : Z :=
  match e with
  | HTTPException code _ => code
  | _ => 500
  end.



(** * The rest of the program *)

(** ** [str.format], [str.replace] and [str] on integers *)

(** The double quote, which a string literal cannot hold. *)
Definition dq : string := String "034"%char EmptyString.

Module Format.

(** What [str.format] raises. *)
Inductive error :=
| ValueError (msg : string)
| KeyError (key : string)
| IndexError (msg : string).

(** Where the scan of the template stands: in literal text, right after a
    [{] or a [}], in a field name, or between [[] and []] in one. *)
Inductive state :=
| Text
| Open
| Close
| Field (name : string)
| Index (name : string).

(** The result of one character: the final result, or the next state and
    the output so far. [None] stands for a conversion, a format
    specification or an attribute or item of a value, which the templates of
    the program never reach. *)
Inductive step :=
| Stop (r : option (error + string))
| Next (st : state) (out : string).

Definition snoc (s : string) (c : ascii) : string := s ++ String c EmptyString.

Fixpoint all_digits (s : string) : bool :=
  match s with
  | EmptyString => true
  | String c s' =>
      let n := N_of_ascii c in ((48 <=? n) && (n <=? 57))%N && all_digits s'
  end.

Fixpoint has_accessor (s : string) : bool :=
  match s with
  | EmptyString => false
  | String c s' =>
      Ascii.eqb c "."%char || Ascii.eqb c "["%char || has_accessor s'
  end.

Fixpoint get (kwargs : list (string * string)) (key : string) : option string :=
  match kwargs with
  | [] => None
  | (k, v) :: kwargs' => if String.eqb k key then Some v else get kwargs' key
  end.

(** The value of the field [name]: an empty or numeric name indexes the
    positional arguments, of which the program passes none. *)
Definition field (kwargs : list (string * string)) (name : string)
    : option (error + string) :=
  if has_accessor name then None
  else if all_digits name then
    Some (inl (IndexError
      "Replacement index 0 out of range for positional args tuple"))
  else match get kwargs name with
       | Some v => Some (inr v)
       | None => Some (inl (KeyError name))
       end.

Definition in_field (kwargs : list (string * string)) (name out : string)
    (c : ascii) : step :=
  if Ascii.eqb c "{"%char then
    Stop (Some (inl (ValueError "unexpected '{' in field name")))
  else if Ascii.eqb c "["%char then Next (Index (snoc name c)) out
  else if Ascii.eqb c "}"%char then
    match field kwargs name with
    | Some (inr v) => Next Text (out ++ v)
    | r => Stop r
    end
  else if Ascii.eqb c ":"%char || Ascii.eqb c "!"%char then Stop None
  else Next (Field (snoc name c)) out.

Definition on_char (kwargs : list (string * string)) (st : state)
    (out : string) (c : ascii) : step :=
  match st with
  | Text =>
      if Ascii.eqb c "{"%char then Next Open out
      else if Ascii.eqb c "}"%char then Next Close out
      else Next Text (snoc out c)
  | Open =>
      if Ascii.eqb c "{"%char then Next Text (snoc out c)
      else in_field kwargs EmptyString out c
  | Close =>
      if Ascii.eqb c "}"%char then Next Text (snoc out c)
      else Stop (Some (inl (ValueError
             "Single '}' encountered in format string")))
  | Field name => in_field kwargs name out c
  | Index name =>
      if Ascii.eqb c "]"%char then Next (Field (snoc name c)) out
      else Next (Index (snoc name c)) out
  end.

Definition at_end (st : state) (out : string) : option (error + string) :=
  match st with
  | Text => Some (inr out)
  | Open => Some (inl (ValueError "Single '{' encountered in format string"))
  | Close => Some (inl (ValueError "Single '}' encountered in format string"))
  | Field _ | Index _ =>
      Some (inl (ValueError "expected '}' before end of string"))
  end.

Fixpoint scan (kwargs : list (string * string)) (st : state) (out : string)
    (template : string) : option (error + string) :=
  match template with
  | EmptyString => at_end st out
  | String c template' =>
      match on_char kwargs st out c with
      | Stop r => r
      | Next st' out' => scan kwargs st' out' template'
      end
  end.

(** [template.format(k=v, ...)], the values given by their [str]. *)
Definition format (template : string) (kwargs : list (string * string))
    : option (error + string) :=
  scan kwargs Text EmptyString template.

(** [s.replace(old, new)] for a non-empty [old]; [skip] counts the
    characters of a match that are still to be dropped. *)
Fixpoint replace_from (old new : string) (skip : nat) (s : string) : string :=
  match s with
  | EmptyString => EmptyString
  | String c s' =>
      match skip with
      | S k => replace_from old new k s'
      | O =>
          if String.prefix old s then
            new ++ replace_from old new (String.length old - 1) s'
          else String c (replace_from old new O s')
      end
  end.

Definition replace (old new s : string) : string := replace_from old new 0 s.

End Format.

(** [str(n)] for an integer. *)
Definition str (n : Z) : string := NilZero.string_of_int (Z.to_int n).

(** [s or e] on a string, for the empty string [e]. *)
Definition or_str (s : string) : string :=
  if Str.truthy s then s else EmptyString.

(** ** [view_page], with the text of the page *)

(** [view_page] above keeps the page of a live record as its two holes.
    Here the text is built as the source builds it, with [str.format] on
    the timer template; both leave the same world, and what they answer for
    a live record is compared below. *)

Module Html.

(** The template of lines 228-247, characters as in the source. *)
Definition timer_template : string :=
  "
    <div id="
  ++ dq ++ "_meta"
  ++ dq ++ " style="
  ++ dq ++ "position:fixed;right:8px;bottom:8px;z-index:9999;font:12px/1.2 system-ui,-apple-system,Segoe UI,Roboto,Helvetica,Arial,sans-serif;color:#444;background:rgba(255,255,255,0.7);backdrop-filter:saturate(1.2) blur(2px);padding:6px 8px;border-radius:6px"
  ++ dq ++ ">
      <span id="
  ++ dq ++ "_time"
  ++ dq ++ ">{remaining}</span>s
      <button id="
  ++ dq ++ "_copy"
  ++ dq ++ " style="
  ++ dq ++ "margin-left:8px;background:#000;color:#fff;border:none;padding:4px 6px;border-radius:4px;cursor:pointer;font-size:12px"
  ++ dq ++ ">Copy link</button>
    </div>
    <script>
      (function(){
        var t = {{remaining: __REM__}};
        var el = document.getElementById('_time');
        var iv = setInterval(function(){
          if(!el) return;
          if(t.remaining <= 0){ clearInterval(iv); location.reload(); return; }
          t.remaining -= 1; el.textContent = t.remaining;
        }, 1000);
        document.getElementById('_copy').addEventListener('click', async function(){
          try { await navigator.clipboard.writeText(window.location.href); this.textContent='Copied'; setTimeout(()=>this.textContent='Copy link',1200);} catch(e){}
        });
      })();
    </script>
    ".

(** The three pieces of the f-string of lines 251-265, around
    [{content_html}] and [{timer_html}]. *)
Definition page_head : string :=
  "
    <!doctype html>
    <html>
      <head>
        <meta charset="
  ++ dq ++ "utf-8"
  ++ dq ++ " />
        <meta name="
  ++ dq ++ "viewport"
  ++ dq ++ " content="
  ++ dq ++ "width=device-width, initial-scale=1"
  ++ dq ++ " />
        <title>Shared Content</title>
        <style>html,body{background:#fff;margin:0;padding:0}img{max-width:100%;height:auto}</style>
      </head>
      <body>
        ".

Definition page_middle : string :=
  "
        ".

Definition page_tail : string :=
  "
      </body>
    </html>
    ".

(** The body of the response of line 222. *)
Definition expired_page : string :=
  "<html><body><div style='font-family:system-ui;padding:16px'>This temporary page has expired.</div></body></html>".

(** Lines 227-248: the template formatted with [remaining], then
    [__REM__] replaced. *)
Definition timer_html (remaining : Z) : option (Format.error + string) :=
  match Format.format timer_template [("remaining", str remaining)] with
  | Some (inr s) => Some (inr (Format.replace "__REM__" (str remaining) s))
  | r => r
  end.

(** How a call of the handler ends: with a response, with an exception of
    the program or of [str.format], outside the model of [str.format], or
    never. *)
Inductive failure :=
| Raised (e : exn)
| FormatError (e : Format.error).

Inductive result :=
| Response (status_code : Z) (content : string)
| Failed (f : failure)
| Unrendered
| Hung.

(** [GET /p/{slug}], lines 204-266. *)
Definition view_page (slug : string) (now : Z) (w : world) : result * world :=
  match Db.find_one slug w with
  | (Return None, w1) => (Failed (Raised (HTTPException 404 "Not found")), w1)
  | (Return (Some doc), w1) =>
      if bool_decide (Doc.expires_at doc <= now) then
        match (Db.delete_one (Doc._id doc) ;;
               for_each (Doc.assets doc) remove_asset) w1 with
        | (Return _, w2) => (Response 410 expired_page, w2)
        | (Raise e, w2) => (Failed (Raised e), w2)
        | (Hang, w2) => (Hung, w2)
        end
      else
        let remaining := total_seconds (Doc.expires_at doc - now) in
        match timer_html remaining with
        | Some (inr timer) =>
            let content_html := or_str (Doc.html doc) in
            (Response 200
               (page_head ++ content_html ++ page_middle ++ timer ++ page_tail),
             w1)
        | Some (inl e) => (Failed (FormatError e), w1)
        | None => (Unrendered, w1)
        end
  | (Raise e, w1) => (Failed (Raised e), w1)
  | (Hang, w1) => (Hung, w1)
  end.

(** The status a client sees; an exception that is no [HTTPException] is
    answered with 500. *)
Definition status (r : result) : option Z :=
  match r with
  | Response code _ => Some code
  | Failed (Raised e) => Some (status_of_exn e)
  | Failed (FormatError _) => Some 500
  | Unrendered | Hung => None
  end.

End Html.

(** ** Uploads *)

(** The table of lines 83-89 and of lines 112-118, read with [.get] and the empty string as
    default. *)
Definition image_ext (content_type : string) : string :=
  if String.eqb content_type "image/jpeg" then ".jpg"
  else if String.eqb content_type "image/png" then ".png"
  else if String.eqb content_type "image/gif" then ".gif"
  else if String.eqb content_type "image/webp" then ".webp"
  else if String.eqb content_type "image/svg+xml" then ".svg"
  else EmptyString.

(** [open(path, "wb")] and the writes to it: the path is a regular file
    afterwards. The filesystem of the model keeps no contents, as nothing in
    the program reads a file back; the call is none of the record
    lifecycle and leaves no entry in the log. *)
Definition write_file (path : string) : M unit :=
  fun w => set_files ({[path]} ∪ files (disk w)) w.

(** [POST /api/upload], given the content type of the part, its bytes and
    the twelve bytes that [secrets.token_urlsafe(12)] draws. The dictionary
    it returns has the one key [url]. *)
Definition upload_image (content_type : option string) (content : list byte)
    (urandom : list byte) : M string :=
  match content_type with
  | None => raise (HTTPException 400 "Only image uploads are allowed")
  | Some content_type =>
      if negb (Str.truthy content_type)
         || negb (String.prefix "image/" content_type) then
        raise (HTTPException 400 "Only image uploads are allowed")
      else
        let ext := image_ext content_type in
        let filename := Secrets.token_urlsafe urandom ++ ext in
        uploads <- UPLOAD_DIR ;;
        let filepath := Posix.join uploads filename in
        write_file filepath ;;
        ret ("/uploads/" ++ filename)
  end.

(** What [requests.get(url, timeout=10, stream=True)] gave: the status, the
    [content-type] header if any, and the chunks of [iter_content(8192)]. *)
Module Fetched.
Record t := mk {
  status_code : Z;
  content_type : option string;
  chunks : list (list byte)
}.
End Fetched.

Definition max_bytes : Z := 8 * 1024 * 1024.

(** The loop of lines 124-134; [written] is what the file holds so far, and
    the loop returns what it holds at the end. *)
Fixpoint copy_chunks (filepath : string) (size : Z) (written : list byte)
    (chunks : list (list byte)) : M (list byte) :=
  match chunks with
  | [] => ret written
  | chunk :: chunks' =>
      if negb (nonempty chunk) then ret written
      else
        let size := size + Z.of_nat (List.length chunk) in
        if (max_bytes <? size)%Z then
          try_except (Os.remove filepath) (fun _ => ret tt) ;;
          raise (HTTPException 413 "Image too large")
        else copy_chunks filepath size (written ++ chunk)%list chunks'
  end.

(** [GET /api/proxy-image]; [fetched] is [None] when [requests.get]
    raised. *)
Definition proxy_image (url : string) (fetched : option Fetched.t)
    (urandom : list byte) : M string :=
  if negb (String.prefix "http://" url || String.prefix "https://" url) then
    raise (HTTPException 400 "Invalid URL")
  else
    match fetched with
    | None => raise (HTTPException 400 "Could not fetch image")
    | Some r =>
        if negb (Fetched.status_code r =? 200)%Z then
          raise (HTTPException 400 "Image not accessible")
        else
          let content_type := default EmptyString (Fetched.content_type r) in
          if negb (String.prefix "image/" content_type) then
            raise (HTTPException 400 "URL is not an image")
          else
            let ext := image_ext content_type in
            let filename := Secrets.token_urlsafe urandom ++ ext in
            uploads <- UPLOAD_DIR ;;
            let filepath := Posix.join uploads filename in
            write_file filepath ;;
            copy_chunks filepath 0 [] (Fetched.chunks r) ;;
            ret ("/uploads/" ++ filename)
    end.

(** * The vocabulary of the properties

    What the statements below are written with: the invariant of the
    store, the resolver of the specification, the worlds after each call,
    and sample data. *)

(** Identities are unique and below [next_oid]; slugs are unique. The first
    two hold by construction of [insert_one], the third is what
    [generate_slug] checks before every insertion. *)
Definition wf_store (c : collection) : Prop :=
  NoDup (Doc._id <$> documents c)
  ∧ Forall (fun d => (Doc._id d < next_oid c)%nat) (documents c)
  ∧ NoDup (Doc.slug <$> documents c).

Global Instance wf_store_dec c : Decision (wf_store c).
Proof. unfold wf_store. apply _. Defined.

(** The records of the store. *)
Definition docs (w : world) : list Doc.t := documents (page w).

(** The reference with its leading slashes stripped, under the working
    directory. *)
Definition candidate_cwd (fs : filesystem) (asset : string) : string :=
  Posix.join (cwd fs) (Str.lstrip "/" asset).

(** The base name of the reference, under the upload directory. *)
Definition candidate_uploads (fs : filesystem) (asset : string) : string :=
  Posix.join (Posix.join (cwd fs) "uploads")
    (Posix.basename (Str.lstrip "/" asset)).

(** The resolver as section 4.3 of the specification words it: the first
    candidate if it is a file, else the second if it is a file, else
    nothing. The source has no such function; [remove_asset] is compared
    with it below. *)
Definition resolve (fs : filesystem) (asset : string) : option string :=
  if decide (candidate_cwd fs asset ∈ files fs) then Some (candidate_cwd fs asset)
  else if decide (candidate_uploads fs asset ∈ files fs)
       then Some (candidate_uploads fs asset)
       else None.

(** The world after [os.remove(path)] was attempted on an existing file. *)
Definition unlink (path : string) (w : world) : world :=
  {| page := page w;
     disk := {| cwd := cwd (disk w);
                files := if decide (path ∈ denied (disk w)) then files (disk w)
                         else files (disk w) ∖ {[path]};
                denied := denied (disk w) |};
     log := log w ++ [OsRemove path] |}.

(** [w'] comes from [w] by attempted removals only. *)
Definition cleaned (w w' : world) : Prop :=
  page w' = page w
  ∧ cwd (disk w') = cwd (disk w)
  ∧ denied (disk w') = denied (disk w)
  ∧ files (disk w') ⊆ files (disk w)
  ∧ ∃ paths, log w' = (log w ++ (OsRemove <$> paths))%list.

(** The record a lookup by slug finds: the first one in store order. *)
Definition lookup (s : string) (w : world) : option Doc.t :=
  head (filter (fun d => Doc.slug d = s) (docs w)).

(** The worlds after [delete_one], [delete_many] and [insert_one]. *)
Definition after_delete_one (oid : nat) (w : world) : world :=
  {| page := {| documents := drop_first oid (docs w);
                next_oid := next_oid (page w) |};
     disk := disk w;
     log := log w ++ [DeleteOne oid] |}.

Definition after_delete_many (oids : list nat) (w : world) : world :=
  {| page := {| documents := filter (fun d => Doc._id d ∉ oids) (docs w);
                next_oid := next_oid (page w) |};
     disk := disk w;
     log := log w ++ [DeleteMany oids] |}.

Definition after_insert_one (d : Doc.t) (w : world) : world :=
  {| page := {| documents := docs w ++ [d];
                next_oid := S (next_oid (page w)) |};
     disk := disk w;
     log := log w ++ [InsertOne d] |}.

(** The lazy expiry of [d]: the record is deleted first, then only files
    are touched, and no resolved asset of [d] is left unless its removal is
    refused. *)
Definition expired_on_access (d : Doc.t) (w w' : world) : Prop :=
  cleaned (after_delete_one (Doc._id d) w) w'
  ∧ ∀ asset path, asset ∈ Doc.assets d ->
      resolve (disk w) asset = Some path ->
      path ∉ denied (disk w) -> path ∉ files (disk w').

(** What [get_page] returns for the live record [d] at [now]. *)
Definition page_data (d : Doc.t) (now : Z) : PageData.t :=
  {| PageData.slug := Doc.slug d;
     PageData.html := Doc.html d;
     PageData.expires_at := Doc.expires_at d;
     PageData.remaining_seconds :=
       Z.max 0 (total_seconds (Doc.expires_at d - now));
     PageData.assets := Doc.assets d |}.

(** The slug that one draw of random bytes yields. *)
Definition slug_of_draw (length : nat) (bytes : list byte) : string :=
  Str.take length (Str.filter Str.alnum (Secrets.token_urlsafe bytes)).

(** The test of line 143 on one draw. *)
Definition acceptable (length : nat) (w : world) (bytes : list byte) : bool :=
  Str.truthy (slug_of_draw length bytes)
  && Nat.eqb (List.length (filter (fun d => Doc.slug d = slug_of_draw length bytes)
                             (docs w))) 0.

(** The document of lines 154-160. *)
Definition new_doc (payload : PageCreate.t) (now : Z) (slug : string)
    (oid : nat) : Doc.t :=
  {| Doc._id := oid;
     Doc.slug := slug;
     Doc.html := PageCreate.html payload;
     Doc.created_at := now;
     Doc.expires_at :=
       now + timedelta (or_int (PageCreate.ttl_seconds payload) DEFAULT_TTL_SECONDS);
     Doc.assets := or_list (PageCreate.assets payload) |}.

(** The document an event adds to the store, if any. *)
Definition inserted (e : event) (w : world) : option Doc.t :=
  match e with
  | (now, CreatePage payload urandom) =>
      match List.find (acceptable 8 w) urandom with
      | Some bytes =>
          Some (new_doc payload now (slug_of_draw 8 bytes) (next_oid (page w)))
      | None => None
      end
  | _ => None
  end.

(** No event of the run inserts a record under the slug [s]. *)
Fixpoint never_recreated (s : string) (es : list event) (w : world) : Prop :=
  match es with
  | [] => True
  | e :: es' =>
      Doc.slug <$> inserted e w ≠ Some s ∧ never_recreated s es' (step e w)
  end.

(** A request whose clock reading is not before [now], with a validated
    payload when it creates a page. *)
Definition after_snapshot (now : Z) (e : event) : Prop :=
  now <= fst e
  ∧ match snd e with
    | CreatePage payload _ => PageCreate.validated payload
    | _ => True
    end.

(** A stored record as [create_page] makes it from a validated request: a
    non-empty alphanumeric slug of at most eight characters, and a lifetime
    between 60 and 86400 seconds. *)
Definition record_ok (d : Doc.t) : Prop :=
  Doc.slug d ≠ EmptyString
  ∧ (String.length (Doc.slug d) <= 8)%nat
  ∧ Str.forallb Str.alnum (Doc.slug d) = true
  ∧ Doc.created_at d + timedelta 60 <= Doc.expires_at d
    <= Doc.created_at d + timedelta 86400.

(** The payloads of the requests that create pages passed validation. *)
Definition validated_requests (es : list event) : Prop :=
  Forall (fun e => match snd e with
                   | CreatePage payload _ => PageCreate.validated payload
                   | _ => True
                   end) es.

(** The world after [os.remove(path)] in [try: ... except Exception: pass]. *)
Definition after_try_remove (path : string) (w : world) : world :=
  snd (try_except (Os.remove path) (fun _ => ret tt) w).

(** The chunks a response yields before its first empty one. *)
Fixpoint until_empty (chunks : list (list byte)) : list (list byte) :=
  match chunks with
  | [] => []
  | chunk :: chunks' =>
      if nonempty chunk then chunk :: until_empty chunks' else []
  end.

(** The characters of a token of [secrets.token_urlsafe]. *)
Definition url_safe (c : ascii) : bool :=
  Str.alnum c || Ascii.eqb c "-"%char || Ascii.eqb c "_"%char.

(** No separator, so a name of such characters names a file of the
    directory it is joined to. *)
Definition no_sep (c : ascii) : bool := negb (Ascii.eqb c Posix.sep).

(** A working directory with three files, an empty store, three draws of
    eight random bytes and a request; the tokens of the draws are
    [__________8], [----aGVsbG8] and [aGVsbG8hISE]. *)
Module Sample.

Definition fs : filesystem :=
  {| cwd := "/srv/app";
     files := {["/srv/app/uploads/a.png"; "/srv/app/uploads/b.png";
                "/srv/app/static/logo.png"]};
     denied := ∅ |}.

Definition start : world :=
  {| page := {| documents := []; next_oid := 0 |}; disk := fs; log := [] |}.

Definition ones : list byte :=
  [xff; xff; xff; xff; xff; xff; xff; xff]%byte.

Definition dashes : list byte :=
  [xfb; xef; xbe; x68; x65; x6c; x6c; x6f]%byte.

Definition hello : list byte :=
  [x68; x65; x6c; x6c; x6f; x21; x21; x21]%byte.

Definition payload : PageCreate.t :=
  {| PageCreate.html := "<h1>hi</h1>";
     PageCreate.ttl_seconds := Some 60;
     PageCreate.assets := Some ["/uploads/a.png"; "b.png"; "missing.png"] |}.

(** The record that [create_page payload] stores at time 0 on the draw
    [hello], the response, and the world that holds the record. *)
Definition record : Doc.t :=
  {| Doc._id := 0;
     Doc.slug := "aGVsbG8h";
     Doc.html := "<h1>hi</h1>";
     Doc.created_at := 0;
     Doc.expires_at := 60000000;
     Doc.assets := ["/uploads/a.png"; "b.png"; "missing.png"] |}.

Definition created : Created.t :=
  {| Created.slug := "aGVsbG8h";
     Created.url := "/p/aGVsbG8h";
     Created.expires_at := 60000000;
     Created.ttl_seconds := 60 |}.

Definition stored : world :=
  {| page := {| documents := [record]; next_oid := 1 |};
     disk := fs;
     log := [InsertOne record] |}.

End Sample.

(** Decides a closed, decidable proposition by evaluation. *)
Ltac by_evaluation := apply (bool_decide_unpack _); vm_compute; exact I.

(** * Properties *)

(** ** The helpers, on examples *)

Example token_urlsafe_hello :
  Secrets.token_urlsafe [x68; x65; x6c; x6c; x6f]%byte = "aGVsbG8".
Proof. reflexivity. Qed.

Example token_urlsafe_high :
  Secrets.token_urlsafe [xfb; xef; xbe; xff]%byte = "----_w".
Proof. reflexivity. Qed.

Example basename_uploads : Posix.basename "uploads/a/b.png" = "b.png".
Proof. reflexivity. Qed.

Example basename_trailing : Posix.basename "uploads/" = "".
Proof. reflexivity. Qed.

Example join_plain : Posix.join "/srv/app" "uploads" = "/srv/app/uploads".
Proof. reflexivity. Qed.

(** ** Well-formed stores *)

Section store_lemmas.
Implicit Types (d : Doc.t) (ds : list Doc.t) (s : string) (oid n : nat).

Lemma head_filter_elem (P : Doc.t -> Prop) {Pdec : ∀ d, Decision (P d)} ds d :
  head (filter P ds) = Some d -> d ∈ ds ∧ P d.
Proof.
  intros H. apply head_Some_elem_of in H.
  apply list_elem_of_filter in H. tauto.
Qed.

Lemma head_filter_none (P : Doc.t -> Prop) {Pdec : ∀ d, Decision (P d)} ds :
  head (filter P ds) = None <-> ∀ d, d ∈ ds -> ¬ P d.
Proof.
  induction ds as [|a ds IH]; simpl.
  - split; [intros _ d Hd; inversion Hd | done].
  - rewrite filter_cons. destruct (decide (P a)) as [Ha|Ha]; simpl.
    + split; [done|]. intros H. exfalso. apply (H a); [left | done].
    + rewrite IH. split.
      * intros H d Hd. apply elem_of_cons in Hd as [->|Hd]; auto.
      * intros H d Hd. apply H. by right.
Qed.

Lemma find_by_unique_slug ds d :
  NoDup (Doc.slug <$> ds) -> d ∈ ds ->
  head (filter (fun x => Doc.slug x = Doc.slug d) ds) = Some d.
Proof.
  induction ds as [|a ds IH]; intros Hnd Hd; [inversion Hd|].
  rewrite fmap_cons in Hnd. apply NoDup_cons in Hnd as [Ha Hnd].
  rewrite filter_cons. apply elem_of_cons in Hd as [->|Hd].
  - by rewrite decide_True.
  - rewrite decide_False; [by apply IH|].
    intros Heq. apply Ha. rewrite Heq. by apply list_elem_of_fmap_2.
Qed.

Lemma count_zero_absent ds s :
  length (filter (fun x => Doc.slug x = s) ds) = 0%nat <->
  ∀ d, d ∈ ds -> Doc.slug d ≠ s.
Proof.
  rewrite <- (head_filter_none (fun x => Doc.slug x = s)).
  destruct (filter _ ds); simpl; split; done.
Qed.

Lemma drop_first_sublist oid ds : drop_first oid ds `sublist_of` ds.
Proof.
  induction ds as [|a ds IH]; simpl; [constructor|].
  destruct (decide (Doc._id a = oid)).
  - by apply sublist_cons.
  - by apply sublist_skip.
Qed.

Lemma elem_of_drop_first oid ds d :
  NoDup (Doc._id <$> ds) ->
  d ∈ drop_first oid ds <-> d ∈ ds ∧ Doc._id d ≠ oid.
Proof.
  induction ds as [|a ds IH]; intros Hnd; simpl.
  - split; [intros H; inversion H | intros [H _]; inversion H].
  - rewrite fmap_cons in Hnd. apply NoDup_cons in Hnd as [Ha Hnd].
    destruct (decide (Doc._id a = oid)) as [Heq|Hne].
    + rewrite elem_of_cons. split.
      * intros Hd. split; [by right|]. intros Hid. apply Ha.
        rewrite Heq, <- Hid. by apply list_elem_of_fmap_2.
      * intros [[->|Hd] Hid]; [congruence | done].
    + rewrite !elem_of_cons, (IH Hnd). split.
      * intros [->|[Hd Hid]]; [split; [by left | done] | split; [by right | done]].
      * intros [[->|Hd] Hid]; [by left | by right].
Qed.

Lemma wf_store_sublist ds ds' n :
  ds' `sublist_of` ds ->
  wf_store {| documents := ds; next_oid := n |} ->
  wf_store {| documents := ds'; next_oid := n |}.
Proof.
  intros Hsub (Hids & Hfresh & Hslugs). unfold wf_store; simpl in *.
  split; [|split].
  - eapply sublist_NoDup; [exact Hids|]. by apply fmap_sublist.
  - rewrite Forall_forall in *. intros d Hd. apply Hfresh.
    eapply elem_of_sublist; eauto.
  - eapply sublist_NoDup; [exact Hslugs|]. by apply fmap_sublist.
Qed.

Lemma wf_store_insert ds n d :
  Doc._id d = n -> (∀ x, x ∈ ds -> Doc.slug x ≠ Doc.slug d) ->
  wf_store {| documents := ds; next_oid := n |} ->
  wf_store {| documents := ds ++ [d]; next_oid := S n |}.
Proof.
  intros Hid Hslug (Hids & Hfresh & Hslugs). unfold wf_store; simpl in *.
  rewrite !fmap_app. simpl. rewrite Forall_forall in Hfresh.
  split; [|split].
  - apply NoDup_app. split; [done|]. split; [|apply NoDup_singleton].
    intros i Hi Hin. apply list_elem_of_singleton in Hin. subst i.
    apply list_elem_of_fmap in Hi as (x & Hx & Hin).
    apply Hfresh in Hin. lia.
  - apply Forall_app. split.
    + apply Forall_forall. intros x Hx. apply Hfresh in Hx. lia.
    + apply Forall_singleton. lia.
  - apply NoDup_app. split; [done|]. split; [|apply NoDup_singleton].
    intros s Hs Hin. apply list_elem_of_singleton in Hin. subst s.
    apply list_elem_of_fmap in Hs as (x & Hx & Hin).
    by apply (Hslug x).
Qed.

Lemma same_id_same_doc ds d d' :
  NoDup (Doc._id <$> ds) -> d ∈ ds -> d' ∈ ds -> Doc._id d = Doc._id d' -> d = d'.
Proof.
  induction ds as [|a ds IH]; intros Hnd Hd Hd' Hid; [inversion Hd|].
  rewrite fmap_cons in Hnd. apply NoDup_cons in Hnd as [Ha Hnd].
  apply elem_of_cons in Hd as [->|Hd]; apply elem_of_cons in Hd' as [->|Hd'].
  - done.
  - exfalso. apply Ha. rewrite Hid. by apply list_elem_of_fmap_2.
  - exfalso. apply Ha. rewrite <- Hid. by apply list_elem_of_fmap_2.
  - by apply IH.
Qed.

End store_lemmas.

(** ** Resolving and removing asset files *)

Section asset_lemmas.
Implicit Types (w : world) (asset path : string).

Lemma cleaned_refl w : cleaned w w.
Proof.
  split; [done|]. split; [done|]. split; [done|]. split; [done|].
  exists []. simpl. by rewrite app_nil_r.
Qed.

Lemma cleaned_trans w1 w2 w3 : cleaned w1 w2 -> cleaned w2 w3 -> cleaned w1 w3.
Proof.
  intros (Hp & Hc & Hd & Hf & ps & Hl) (Hp' & Hc' & Hd' & Hf' & ps' & Hl').
  split; [congruence|]. split; [congruence|]. split; [congruence|].
  split; [by etrans|].
  exists (ps ++ ps')%list. rewrite Hl', Hl, fmap_app. by rewrite app_assoc.
Qed.

Lemma cleaned_unlink path w : cleaned w (unlink path w).
Proof.
  split; [done|]. split; [done|]. split; [done|]. split.
  - simpl. destruct (decide _); [done|]. apply subseteq_difference_l. done.
  - by exists [path].
Qed.

(** [remove_asset] returns, and does what the resolver of the
    specification prescribes. *)
Lemma remove_asset_resolve asset w :
  remove_asset asset w =
  (Return tt,
   match resolve (disk w) asset with
   | Some path => unlink path w
   | None => w
   end).
Proof.
  destruct w as [pg [root fs dn] lg].
  unfold remove_asset, resolve, candidate_cwd, candidate_uploads, unlink,
    UPLOAD_DIR, try_except, bind, ret, Os.getcwd, Os.isfile, Os.remove,
    emit, set_files, raise; simpl.
  destruct (decide (Posix.join root (Str.lstrip "/" asset) ∈ fs)) as [Hin|Hin].
  - rewrite !(bool_decide_eq_true_2 _ Hin). simpl.
    rewrite !(bool_decide_eq_true_2 _ Hin). simpl.
    destruct (decide (_ ∈ dn)) as [Hd|Hd].
    + by rewrite (bool_decide_eq_true_2 _ Hd).
    + by rewrite (bool_decide_eq_false_2 _ Hd).
  - rewrite !(bool_decide_eq_false_2 _ Hin). simpl.
    destruct (decide (_ ∈ fs)) as [Hin'|Hin'].
    + rewrite !(bool_decide_eq_true_2 _ Hin'). simpl.
      destruct (decide (_ ∈ dn)) as [Hd|Hd].
      * by rewrite (bool_decide_eq_true_2 _ Hd).
      * by rewrite (bool_decide_eq_false_2 _ Hd).
    + by rewrite (bool_decide_eq_false_2 _ Hin').
Qed.

(** A file that is still there after other removals is still what the
    reference resolves to. *)
Lemma resolve_shrink fs fs' asset path :
  cwd fs' = cwd fs -> files fs' ⊆ files fs ->
  resolve fs asset = Some path -> path ∈ files fs' ->
  resolve fs' asset = Some path.
Proof.
  unfold resolve, candidate_cwd, candidate_uploads. intros -> Hsub.
  destruct (decide (_ ∈ files fs)) as [H1|H1].
  - intros [= <-] Hin. by rewrite decide_True.
  - destruct (decide (_ ∈ files fs)) as [H2|H2]; [|done].
    intros [= <-] Hin.
    rewrite decide_False; [by rewrite decide_True|].
    intros Hx. apply H1, Hsub, Hx.
Qed.

Lemma remove_asset_cleaned asset w :
  cleaned w (snd (remove_asset asset w)).
Proof.
  rewrite remove_asset_resolve. simpl.
  destruct (resolve _ _); [apply cleaned_unlink | apply cleaned_refl].
Qed.

Lemma remove_asset_removes asset w path :
  resolve (disk w) asset = Some path -> path ∉ denied (disk w) ->
  path ∉ files (disk (snd (remove_asset asset w))).
Proof.
  intros Hr Hd. rewrite remove_asset_resolve, Hr. simpl.
  rewrite decide_False by done.
  intros [_ Hn]%elem_of_difference. apply Hn. by apply elem_of_singleton.
Qed.

(** The loop over the assets of a document returns, touches only files,
    and leaves no resolved file behind unless its removal is refused. *)
Lemma remove_assets_spec assets w :
  ∃ w', for_each assets remove_asset w = (Return tt, w')
        ∧ cleaned w w'
        ∧ ∀ asset path, asset ∈ assets ->
            resolve (disk w) asset = Some path ->
            path ∉ denied (disk w) -> path ∉ files (disk w').
Proof.
  revert w. induction assets as [|a assets IH]; intros w.
  - exists w. split; [done|]. split; [apply cleaned_refl|].
    intros ? ? H. inversion H.
  - pose proof (remove_asset_cleaned a w) as Hc1.
    pose proof (remove_asset_removes a w) as Hr1.
    simpl. unfold bind at 1. rewrite remove_asset_resolve in *. simpl in *.
    set (w1 := match resolve (disk w) a with
               | Some path => unlink path w | None => w end) in *.
    destruct (IH w1) as (w' & Hrun & Hc2 & Hgone).
    exists w'. split; [done|]. split; [by eapply cleaned_trans|].
    intros asset path Hin Hres Hden.
    destruct Hc1 as (_ & Hcwd & Hdn & Hsub & _).
    destruct Hc2 as (_ & _ & _ & Hsub' & _).
    destruct (decide (path ∈ files (disk w1))) as [Hstill|Hgone1];
      [|intros Hx; apply Hgone1, Hsub', Hx].
    apply elem_of_cons in Hin as [->|Hin].
    + exfalso. by apply (Hr1 path).
    + apply (Hgone asset); [done| |congruence].
      by apply (resolve_shrink (disk w)).
Qed.

End asset_lemmas.

(** ** What the handlers do *)

Section handler_lemmas.
Implicit Types (w : world) (d : Doc.t) (s : string) (now : Z).

Lemma bind_return {A B} (c : M A) (k : A -> M B) w a w' :
  c w = (Return a, w') -> bind c k w = k a w'.
Proof. unfold bind. by intros ->. Qed.

Lemma delete_one_eq oid w :
  Db.delete_one oid w = (Return tt, after_delete_one oid w).
Proof. reflexivity. Qed.

Lemma insert_one_eq doc w :
  Db.insert_one doc w =
  (Return tt, after_insert_one (doc (next_oid (page w))) w).
Proof. reflexivity. Qed.

Lemma get_page_not_found s now w :
  lookup s w = None ->
  get_page s now w = (Raise (HTTPException 404 "Not found"), w).
Proof.
  unfold lookup, docs, get_page, bind, Db.find_one. by intros ->.
Qed.

Lemma get_page_alive s now w d :
  lookup s w = Some d -> now < Doc.expires_at d ->
  get_page s now w = (Return (page_data d now), w).
Proof.
  unfold lookup, docs, get_page, bind, Db.find_one. intros -> Hlt.
  rewrite bool_decide_eq_false_2 by lia. done.
Qed.

Lemma get_page_expired s now w d :
  lookup s w = Some d -> Doc.expires_at d <= now ->
  ∃ w', get_page s now w = (Raise (HTTPException 410 "Expired"), w')
        ∧ expired_on_access d w w'.
Proof.
  unfold lookup, docs, get_page, bind at 1, Db.find_one. intros -> Hle.
  rewrite bool_decide_eq_true_2 by done.
  destruct (remove_assets_spec (Doc.assets d) (after_delete_one (Doc._id d) w))
    as (w' & Hrun & Hclean & Hgone).
  exists w'. split; [|by split]. cbv iota.
  rewrite (bind_return _ _ _ _ _ (delete_one_eq _ _)).
  by rewrite (bind_return _ _ _ _ _ Hrun).
Qed.

Lemma view_page_not_found s now w :
  lookup s w = None ->
  view_page s now w = (Raise (HTTPException 404 "Not found"), w).
Proof.
  unfold lookup, docs, view_page, bind, Db.find_one. by intros ->.
Qed.

Lemma view_page_alive s now w d :
  lookup s w = Some d -> now < Doc.expires_at d ->
  view_page s now w =
  (Return {| HTMLResponse.status_code := 200;
             HTMLResponse.content :=
               HTMLResponse.SharedContent (Doc.html d)
                 (total_seconds (Doc.expires_at d - now)) |}, w).
Proof.
  unfold lookup, docs, view_page, bind, Db.find_one. intros -> Hlt.
  rewrite bool_decide_eq_false_2 by lia. done.
Qed.

Lemma view_page_expired s now w d :
  lookup s w = Some d -> Doc.expires_at d <= now ->
  ∃ w', view_page s now w =
        (Return {| HTMLResponse.status_code := 410;
                   HTMLResponse.content := HTMLResponse.ExpiredNotice |}, w')
        ∧ get_page s now w = (Raise (HTTPException 410 "Expired"), w')
        ∧ expired_on_access d w w'.
Proof.
  intros Hfind Hle.
  destruct (remove_assets_spec (Doc.assets d) (after_delete_one (Doc._id d) w))
    as (w' & Hrun & Hclean & Hgone).
  exists w'. unfold lookup, docs in Hfind.
  split; [|split; [|by split]].
  - unfold view_page, bind at 1, Db.find_one. rewrite Hfind.
    rewrite bool_decide_eq_true_2 by done. cbv iota.
    rewrite (bind_return _ _ _ _ _ (delete_one_eq _ _)).
    by rewrite (bind_return _ _ _ _ _ Hrun).
  - unfold get_page, bind at 1, Db.find_one. rewrite Hfind.
    rewrite bool_decide_eq_true_2 by done. cbv iota.
    rewrite (bind_return _ _ _ _ _ (delete_one_eq _ _)).
    by rewrite (bind_return _ _ _ _ _ Hrun).
Qed.

End handler_lemmas.

Section creation_lemmas.
Implicit Types (w : world) (d : Doc.t) (s : string) (now : Z).

(** [generate_slug] returns the slug of the first acceptable draw, and
    hangs when there is none; it changes nothing. *)
Lemma generate_slug_find length urandom w :
  generate_slug length urandom w =
  (match List.find (acceptable length w) urandom with
   | Some bytes => Return (slug_of_draw length bytes)
   | None => Hang
   end, w).
Proof.
  induction urandom as [|bytes urandom IH]; [done|].
  simpl. unfold bind, Db.count_documents.
  change (Str.truthy _ && Nat.eqb _ 0)
    with (acceptable length w bytes).
  destruct (acceptable length w bytes); [done | apply IH].
Qed.

Lemma acceptable_spec length w bytes :
  acceptable length w bytes = true <->
  slug_of_draw length bytes ≠ EmptyString
  ∧ ∀ d, d ∈ docs w -> Doc.slug d ≠ slug_of_draw length bytes.
Proof.
  unfold acceptable. rewrite andb_true_iff, Nat.eqb_eq, count_zero_absent.
  destruct (slug_of_draw length bytes); simpl; split; intros [? ?]; done.
Qed.

Lemma create_page_eq payload now urandom w :
  create_page payload now urandom w =
  match List.find (acceptable 8 w) urandom with
  | Some bytes =>
      let d := new_doc payload now (slug_of_draw 8 bytes) (next_oid (page w)) in
      (Return {| Created.slug := Doc.slug d;
                 Created.url := "/p/" ++ Doc.slug d;
                 Created.expires_at := Doc.expires_at d;
                 Created.ttl_seconds :=
                   or_int (PageCreate.ttl_seconds payload) DEFAULT_TTL_SECONDS |},
       after_insert_one d w)
  | None => (Hang, w)
  end.
Proof.
  unfold create_page, bind at 1. rewrite generate_slug_find.
  destruct (List.find _ _) as [bytes|]; [|done].
  by rewrite (bind_return _ _ _ _ _ (insert_one_eq _ _)).
Qed.

Lemma step_create_page payload now urandom w :
  step (now, CreatePage payload urandom) w =
  match inserted (now, CreatePage payload urandom) w with
  | Some d => after_insert_one d w
  | None => w
  end.
Proof.
  unfold step, exec, inserted. rewrite create_page_eq.
  by destruct (List.find _ _).
Qed.

Lemma inserted_fresh e w d :
  inserted e w = Some d ->
  Doc._id d = next_oid (page w)
  ∧ Doc.slug d ≠ EmptyString
  ∧ (∀ x, x ∈ docs w -> Doc.slug x ≠ Doc.slug d)
  ∧ Doc.created_at d = fst e
  ∧ ∃ payload urandom, snd e = CreatePage payload urandom
      ∧ Doc.expires_at d =
        Doc.created_at d
        + timedelta (or_int (PageCreate.ttl_seconds payload) DEFAULT_TTL_SECONDS).
Proof.
  destruct e as [now [payload urandom| | |]]; simpl; try done.
  destruct (List.find _ _) as [bytes|] eqn:Hfind; [|done].
  intros [= <-]. apply find_some in Hfind as [_ Hacc].
  apply acceptable_spec in Hacc as [Hne Hfresh]. simpl.
  split; [done|]. split; [done|]. split; [done|]. split; [done|].
  by exists payload, urandom.
Qed.

End creation_lemmas.

Section sweep_lemmas.
Implicit Types (w : world) (d : Doc.t) (now : Z).

Lemma for_each_app {A} (xs ys : list A) (body : A -> M unit) w :
  for_each (xs ++ ys) body w = (for_each xs body ;; for_each ys body) w.
Proof.
  revert w. induction xs as [|x xs IH]; intros w; [done|].
  simpl. unfold bind in *.
  destruct (body x w) as [[[]| |] w1]; done.
Qed.

(** The nested loops of the sweep visit the assets of the batch in order. *)
Lemma sweep_assets_flat ds w :
  sweep_assets ds w = for_each (ds ≫= Doc.assets) remove_asset w.
Proof.
  unfold sweep_assets. revert w.
  induction ds as [|d ds IH]; intros w; [done|].
  simpl. rewrite for_each_app. unfold bind.
  destruct (for_each (Doc.assets d) remove_asset w) as [[[]| |] w1]; done.
Qed.

Lemma sweep_assets_spec ds w :
  ∃ w', sweep_assets ds w = (Return tt, w')
        ∧ cleaned w w'
        ∧ ∀ d asset path, d ∈ ds -> asset ∈ Doc.assets d ->
            resolve (disk w) asset = Some path ->
            path ∉ denied (disk w) -> path ∉ files (disk w').
Proof.
  rewrite sweep_assets_flat.
  destruct (remove_assets_spec (ds ≫= Doc.assets) w) as (w' & Hrun & Hc & Hgone).
  exists w'. split; [done|]. split; [done|].
  intros d asset path Hd Ha. apply Hgone.
  apply list_elem_of_bind. by exists d.
Qed.

(** One turn of the sweep, without interleaved requests. *)
Lemma cleanup_cycle_eq now w :
  cleanup_cycle now w = (Return tt, interleaved_cycle now [] [] w).
Proof.
  unfold cleanup_cycle, interleaved_cycle, try_except, bind at 1,
    sweep_fetch, Db.find_expired. simpl.
  destruct (filter _ _) as [|d ds] eqn:Hbatch; [done|].
  cbv iota. unfold nonempty.
  destruct (sweep_assets_spec (d :: ds) w) as (w' & Hrun & _).
  rewrite (bind_return _ _ _ _ _ Hrun). unfold exec.
  rewrite Hrun. reflexivity.
Qed.

End sweep_lemmas.

(** ** Invariants of runs *)

Section run_lemmas.
Implicit Types (w : world) (d : Doc.t) (ds : list Doc.t).
Implicit Types (e : event) (es : list event).

Lemma expired_on_access_page d w w' :
  expired_on_access d w w' -> page w' = page (after_delete_one (Doc._id d) w).
Proof. by intros [(Hp & _) _]. Qed.

Lemma filter_no_ids ds : filter (fun d => Doc._id d ∉ @nil nat) ds = ds.
Proof.
  induction ds as [|d ds IH]; [done|].
  rewrite filter_cons_True; [by rewrite IH | apply not_elem_of_nil].
Qed.

(** The store after one turn of the sweep. *)
Lemma sweep_page now w :
  docs (interleaved_cycle now [] [] w) =
    filter (fun d => Doc._id d ∉
              (Doc._id <$> filter (fun d => Doc.expires_at d <= now) (docs w)))
           (docs w)
  ∧ next_oid (page (interleaved_cycle now [] [] w)) = next_oid (page w).
Proof.
  unfold interleaved_cycle, sweep_fetch, Db.find_expired, docs. simpl.
  destruct (filter _ (documents (page w))) as [|d ds] eqn:Hbatch.
  - simpl. by rewrite filter_no_ids.
  - cbv iota. unfold nonempty, exec.
    destruct (sweep_assets_spec (d :: ds) w) as (w' & Hrun & (Hp & _) & _).
    rewrite Hrun. simpl. by rewrite Hp.
Qed.

(** What one event does to the store. *)
Lemma step_page e w :
  wf_store (page w) ->
  wf_store (page (step e w))
  ∧ (next_oid (page w) <= next_oid (page (step e w)))%nat
  ∧ (∀ d, d ∈ docs (step e w) -> d ∈ docs w ∨ inserted e w = Some d)
  ∧ (∀ d, d ∈ docs w -> d ∈ docs (step e w) ∨ Doc.expires_at d <= fst e).
Proof.
  intros Hwf.
  assert (Hlazy : ∀ d0 w', d0 ∈ docs w -> Doc.expires_at d0 <= fst e ->
            page w' = page (after_delete_one (Doc._id d0) w) ->
            wf_store (page w')
            ∧ (next_oid (page w) <= next_oid (page w'))%nat
            ∧ (∀ d, d ∈ docs w' -> d ∈ docs w ∨ inserted e w = Some d)
            ∧ (∀ d, d ∈ docs w -> d ∈ docs w' ∨ Doc.expires_at d <= fst e)).
  { intros d0 w' Hd0 Hexp Hp. unfold docs in *. rewrite Hp. simpl.
    destruct w as [[ds n] fs lg]; simpl in *.
    split; [|split; [done|split]].
    - eapply wf_store_sublist; [apply drop_first_sublist | done].
    - intros d Hd. left. eapply elem_of_sublist; [|apply drop_first_sublist].
      done.
    - intros d Hd. destruct Hwf as (Hids & _).
      destruct (decide (Doc._id d = Doc._id d0)) as [Heq|Hne].
      + right. by rewrite (same_id_same_doc ds d d0).
      + left. by apply elem_of_drop_first. }
  assert (Hsame : wf_store (page w)
            ∧ (next_oid (page w) <= next_oid (page w))%nat
            ∧ (∀ d, d ∈ docs w -> d ∈ docs w ∨ inserted e w = Some d)
            ∧ (∀ d, d ∈ docs w -> d ∈ docs w ∨ Doc.expires_at d <= fst e)).
  { split; [done|]. split; [done|]. split; intros; by left. }
  destruct e as [now [payload urandom|s|s|]].
  - (* create *)
    rewrite step_create_page.
    destruct (inserted _ w) as [d0|] eqn:Hins; [|done].
    apply inserted_fresh in Hins as (Hid & _ & Hslug & _).
    unfold docs in *. destruct w as [[ds n] fs lg]; simpl in *.
    split; [by apply wf_store_insert|]. split; [lia|]. split.
    + intros d [Hd| ->%list_elem_of_singleton]%elem_of_app; [by left | by right].
    + intros d Hd. left. apply elem_of_app. by left.
  - (* get *)
    unfold step, exec. destruct (lookup s w) as [d0|] eqn:Hfind.
    + destruct (decide (Doc.expires_at d0 <= now)) as [Hle|Hgt].
      * destruct (get_page_expired s now w d0 Hfind Hle) as (w' & -> & Hexp).
        apply head_filter_elem in Hfind as [Hd0 _].
        apply (Hlazy d0 w' Hd0 Hle). by apply expired_on_access_page.
      * rewrite (get_page_alive s now w d0 Hfind) by lia. done.
    + by rewrite (get_page_not_found s now w Hfind).
  - (* view *)
    unfold step, exec. destruct (lookup s w) as [d0|] eqn:Hfind.
    + destruct (decide (Doc.expires_at d0 <= now)) as [Hle|Hgt].
      * destruct (view_page_expired s now w d0 Hfind Hle) as (w' & -> & _ & Hexp).
        apply head_filter_elem in Hfind as [Hd0 _].
        apply (Hlazy d0 w' Hd0 Hle). by apply expired_on_access_page.
      * rewrite (view_page_alive s now w d0 Hfind) by lia. done.
    + by rewrite (view_page_not_found s now w Hfind).
  - (* sweep *)
    unfold step, exec. rewrite cleanup_cycle_eq. simpl.
    destruct (sweep_page now w) as [Hdocs Hnext].
    set (w' := interleaved_cycle now [] [] w) in *.
    assert (Hsub : docs w' `sublist_of` docs w).
    { rewrite Hdocs. apply sublist_filter. }
    split; [|split; [lia|split]].
    + unfold docs in *. destruct (page w') as [ds' n'], (page w) as [ds n].
      simpl in *. subst n'. by eapply wf_store_sublist.
    + intros d Hd. left. by eapply elem_of_sublist.
    + intros d Hd. destruct (decide (Doc.expires_at d <= now)) as [Hle|Hgt];
        [by right | left].
      rewrite Hdocs. apply list_elem_of_filter. split; [|done].
      intros (b & Hid & Hb)%list_elem_of_fmap.
      apply list_elem_of_filter in Hb as [Hb Hbin].
      destruct Hwf as (Hids & _).
      apply Hgt. by rewrite (same_id_same_doc (docs w) d b).
Qed.

Lemma run_cons e es w : run (e :: es) w = run es (step e w).
Proof. reflexivity. Qed.

Lemma run_wf es w : wf_store (page w) -> wf_store (page (run es w)).
Proof.
  revert w. induction es as [|e es IH]; intros w Hwf; [done|].
  rewrite run_cons. apply IH. by apply step_page.
Qed.

Lemma run_next_oid es w :
  wf_store (page w) -> (next_oid (page w) <= next_oid (page (run es w)))%nat.
Proof.
  revert w. induction es as [|e es IH]; intros w Hwf; [done|].
  rewrite run_cons. destruct (step_page e w Hwf) as (Hwf' & Hle & _).
  specialize (IH _ Hwf'). lia.
Qed.

(** A record outlives every event that reads the clock before its expiry. *)
Lemma run_keeps es w d :
  wf_store (page w) -> d ∈ docs w ->
  Forall (fun e => fst e < Doc.expires_at d) es ->
  d ∈ docs (run es w).
Proof.
  revert w. induction es as [|e es IH]; intros w Hwf Hd Hes; [done|].
  apply Forall_cons in Hes as [He Hes]. rewrite run_cons.
  destruct (step_page e w Hwf) as (Hwf' & _ & _ & Hkeep).
  apply IH; [done| |done].
  destruct (Hkeep d Hd) as [?|?]; [done | lia].
Qed.

(** Every record of a later store is a record of the earlier store,
    unchanged, or was inserted in between under a fresh identity. *)
Lemma run_origin es w d :
  wf_store (page w) -> d ∈ docs (run es w) ->
  d ∈ docs w
  ∨ (next_oid (page w) <= Doc._id d)%nat
    ∧ ∃ e payload urandom, e ∈ es ∧ snd e = CreatePage payload urandom
        ∧ Doc.created_at d = fst e
        ∧ Doc.expires_at d =
          Doc.created_at d
          + timedelta (or_int (PageCreate.ttl_seconds payload) DEFAULT_TTL_SECONDS).
Proof.
  revert w. induction es as [|e es IH]; intros w Hwf Hd; [by left|].
  rewrite run_cons in Hd.
  destruct (step_page e w Hwf) as (Hwf' & Hle & Horigin & _).
  destruct (IH _ Hwf' Hd) as [Hin|(Hid & e' & p & u & He' & Hrest)].
  - destruct (Horigin d Hin) as [?|Hins]; [by left|]. right.
    apply inserted_fresh in Hins as (Hid & _ & _ & Hc & p & u & Hreq & Hexp).
    split; [lia|]. exists e, p, u. split; [by left|]. done.
  - right. split; [lia|]. exists e', p, u. split; [by right|]. done.
Qed.

End run_lemmas.

(** ** Lazy expiry *)

Section lazy_expiry.
Implicit Types (w : world) (d : Doc.t) (s : string) (now : Z).

Lemma lookup_stored w d :
  wf_store (page w) -> d ∈ docs w -> lookup (Doc.slug d) w = Some d.
Proof. intros (_ & _ & Hslugs) Hd. by apply find_by_unique_slug. Qed.

Lemma lookup_absent w s :
  lookup s w = None <-> ∀ d, d ∈ docs w -> Doc.slug d ≠ s.
Proof. apply (head_filter_none (fun d => Doc.slug d = s)). Qed.

Lemma expired_on_access_docs w w' d x :
  wf_store (page w) -> d ∈ docs w -> expired_on_access d w w' ->
  x ∈ docs w' <-> x ∈ docs w ∧ x ≠ d.
Proof.
  intros (Hids & _) Hd Hexp. unfold docs at 1.
  rewrite (expired_on_access_page _ _ _ Hexp). simpl.
  rewrite (elem_of_drop_first _ _ _ Hids). split.
  - intros [Hx Hne]. split; [done|]. by intros ->.
  - intros [Hx Hne]. split; [done|]. intros Hid. apply Hne.
    by apply (same_id_same_doc (docs w)).
Qed.

Lemma expired_on_access_log w w' d :
  expired_on_access d w w' ->
  ∃ paths, log w' = (log w ++ DeleteOne (Doc._id d) :: (OsRemove <$> paths))%list.
Proof.
  intros [(_ & _ & _ & _ & paths & Hlog) _]. exists paths.
  rewrite Hlog. simpl. by rewrite <- app_assoc.
Qed.

End lazy_expiry.

(** C1. In a store with unique slugs, reading the slug of a stored record
    at or after its [expires_at] deletes the record ([DeleteOne] is the
    first call the read logs), then attempts the removal of asset files
    only, leaving no resolved asset file behind unless the system refuses
    its removal, and raises [HTTPException(410, "Expired")]: nothing is
    returned. A slug without a stored record raises
    [HTTPException(404, "Not found")] and changes nothing. *)
Theorem get_page_expired_deletes_then_rejects w d now :
  wf_store (page w) -> d ∈ docs w -> Doc.expires_at d <= now ->
  ∃ w' paths,
    get_page (Doc.slug d) now w = (Raise (HTTPException 410 "Expired"), w')
    ∧ (∀ x, x ∈ docs w' <-> x ∈ docs w ∧ x ≠ d)
    ∧ log w' = (log w ++ DeleteOne (Doc._id d) :: (OsRemove <$> paths))%list
    ∧ (∀ asset path, asset ∈ Doc.assets d ->
         resolve (disk w) asset = Some path ->
         path ∉ denied (disk w) -> path ∉ files (disk w'))
    ∧ (∀ s t, (∀ x, x ∈ docs w -> Doc.slug x ≠ s) ->
         get_page s t w = (Raise (HTTPException 404 "Not found"), w)).
Proof.
  intros Hwf Hd Hle.
  destruct (get_page_expired _ now w d (lookup_stored w d Hwf Hd) Hle)
    as (w' & Hget & Hexp).
  destruct (expired_on_access_log w w' d Hexp) as [paths Hlog].
  exists w', paths. split; [done|]. split.
  { intros x. by apply expired_on_access_docs. }
  split; [done|]. split; [apply Hexp|].
  intros s t Habsent. apply get_page_not_found. by apply lookup_absent.
Qed.


(** ** Records over time *)

Section over_time.
Implicit Types (w : world) (d : Doc.t) (s : string) (es : list event).

Lemma run_absent s es w :
  wf_store (page w) -> (∀ x, x ∈ docs w -> Doc.slug x ≠ s) ->
  never_recreated s es w ->
  ∀ x, x ∈ docs (run es w) -> Doc.slug x ≠ s.
Proof.
  revert w. induction es as [|e es IH]; intros w Hwf Habs Hnever; [done|].
  destruct Hnever as [Hne Hnever]. rewrite run_cons.
  destruct (step_page e w Hwf) as (Hwf' & _ & Horigin & _).
  apply IH; [done| |done].
  intros x Hx Hs. destruct (Horigin x Hx) as [Hin|Hins].
  - by apply (Habs x).
  - apply Hne. by rewrite Hins, <- Hs.
Qed.

(** An identity is never given twice, and a record never changes. *)
Lemma run_same_id es w d x :
  wf_store (page w) -> d ∈ docs w -> x ∈ docs (run es w) ->
  Doc._id x = Doc._id d -> x = d.
Proof.
  intros Hwf Hd Hx Hid.
  destruct (run_origin es w x Hwf Hx) as [Hin|[Hfresh _]].
  - destruct Hwf as (Hids & _). by apply (same_id_same_doc (docs w)).
  - destruct Hwf as (_ & Hbelow & _). rewrite Forall_forall in Hbelow.
    apply Hbelow in Hd. lia.
Qed.

End over_time.

(** C3, as the code has it. In a store with unique slugs, the first read of a stored record's
    slug at or after its [expires_at] raises the 410; from then on no record
    of the store ever has the identity of that record again, and every read
    of the slug, at any time and after any requests and sweeps that do not
    insert a new record under the same slug, raises the 404 and changes
    nothing. *)
Theorem expired_signal_once w d now :
  wf_store (page w) -> d ∈ docs w -> Doc.expires_at d <= now ->
  let w1 := exec (get_page (Doc.slug d) now) w in
  fst (get_page (Doc.slug d) now w) = Raise (HTTPException 410 "Expired")
  ∧ (∀ es x, x ∈ docs (run es w1) -> Doc._id x ≠ Doc._id d)
  ∧ (∀ es, never_recreated (Doc.slug d) es w1 -> ∀ t,
       get_page (Doc.slug d) t (run es w1) =
       (Raise (HTTPException 404 "Not found"), run es w1)).
Proof.
  intros Hwf Hd Hle w1. subst w1. unfold exec.
  destruct (get_page_expired _ now w d (lookup_stored w d Hwf Hd) Hle)
    as (w1 & Hget & Hexp).
  pose proof (step_page (now, GetPage (Doc.slug d)) w Hwf) as (Hwf1 & _).
  unfold step, exec in Hwf1. rewrite Hget in *. simpl in *.
  pose proof (expired_on_access_docs w w1 d) as Hdocs.
  split; [done|]. split.
  - intros es x Hx Hid.
    destruct (run_origin es w1 x Hwf1 Hx) as [Hin|[Hfresh _]].
    + apply (Hdocs x Hwf Hd Hexp) in Hin as [Hin Hne]. apply Hne.
      destruct Hwf as (Hids & _). by apply (same_id_same_doc (docs w)).
    + rewrite (expired_on_access_page _ _ _ Hexp) in Hfresh. simpl in Hfresh.
      destruct Hwf as (_ & Hbelow & _). rewrite Forall_forall in Hbelow.
      apply Hbelow in Hd. lia.
  - intros es Hnever t. apply get_page_not_found. apply lookup_absent.
    apply run_absent; [done| |done].
    intros x Hx Hs. apply (Hdocs x Hwf Hd Hexp) in Hx as [Hx Hne].
    apply Hne. destruct Hwf as (_ & _ & Hslugs).
    pose proof (find_by_unique_slug (docs w) x Hslugs Hx) as H1.
    pose proof (find_by_unique_slug (docs w) d Hslugs Hd) as H2.
    rewrite Hs in H1. congruence.
Qed.

(** C6. A record created from a payload is read back unchanged: after
    [create_page] returned, and after any requests and sweeps whose clock
    readings are before the record's [expires_at], a read of its slug
    before [expires_at] returns the HTML of the payload and the assets that
    were stored (the payload's list, in its order), and changes nothing. *)
Theorem read_before_expiry_returns_stored w payload now urandom r w1 :
  wf_store (page w) ->
  create_page payload now urandom w = (Return r, w1) ->
  ∀ es t,
    Forall (fun e => fst e < Created.expires_at r) es ->
    t < Created.expires_at r ->
    ∃ data,
      get_page (Created.slug r) t (run es w1) = (Return data, run es w1)
      ∧ PageData.slug data = Created.slug r
      ∧ PageData.html data = PageCreate.html payload
      ∧ PageData.assets data = or_list (PageCreate.assets payload)
      ∧ PageData.expires_at data = Created.expires_at r.
Proof.
  intros Hwf Hcreate es t Hes Ht.
  pose proof (step_page (now, CreatePage payload urandom) w Hwf) as (Hwf1 & _).
  unfold step, exec in Hwf1. rewrite Hcreate in Hwf1. simpl in Hwf1.
  rewrite create_page_eq in Hcreate.
  destruct (List.find _ _) as [bytes|]; [|done].
  simpl in Hcreate. injection Hcreate as <- <-. simpl in *.
  set (d := new_doc payload now (slug_of_draw 8 bytes) (next_oid (page w))) in *.
  assert (Hd : d ∈ docs (after_insert_one d w)).
  { unfold docs. simpl. apply elem_of_app. right. by apply list_elem_of_singleton. }
  pose proof (run_keeps es (after_insert_one d w) d Hwf1 Hd Hes) as Hkept.
  pose proof (run_wf es (after_insert_one d w) Hwf1) as Hwf2.
  exists (page_data d t). split; [|done].
  apply (get_page_alive (Doc.slug d) t _ d); [|done].
  by apply lookup_stored.
Qed.


(** C8. Given a draw that [generate_slug] accepts, [create_page] returns
    and appends one record whose [expires_at] is its [created_at] plus the
    TTL, the TTL of a validated request being its [ttl_seconds], or 600
    when it has none; it returns the slug, the URL [/p/<slug>], that expiry
    and that TTL. Afterwards no request and no sweep changes a stored
    record: a record found later under the identity of a stored one is that
    record, with its [expires_at]. *)
Theorem create_page_sets_expiry_once w payload now urandom bytes :
  wf_store (page w) -> PageCreate.validated payload ->
  bytes ∈ urandom -> acceptable 8 w bytes = true ->
  ∃ r w1 d ttl,
    create_page payload now urandom w = (Return r, w1)
    ∧ docs w1 = (docs w ++ [d])%list
    ∧ ttl = match PageCreate.ttl_seconds payload with
            | Some s => s
            | None => 600
            end
    ∧ Doc.created_at d = now
    ∧ Doc.expires_at d = Doc.created_at d + timedelta ttl
    ∧ r = {| Created.slug := Doc.slug d;
             Created.url := "/p/" ++ Doc.slug d;
             Created.expires_at := Doc.expires_at d;
             Created.ttl_seconds := ttl |}
    ∧ ∀ es d0 x, d0 ∈ docs w1 -> x ∈ docs (run es w1) ->
        Doc._id x = Doc._id d0 ->
        x = d0 ∧ Doc.expires_at x = Doc.expires_at d0.
Proof.
  intros Hwf Hvalid Hin Hacc.
  pose proof (step_page (now, CreatePage payload urandom) w Hwf) as (Hwf1 & _).
  unfold step, exec in Hwf1. rewrite create_page_eq in *.
  destruct (List.find _ _) as [b|] eqn:Hfind.
  2:{ apply list_elem_of_In in Hin.
      rewrite (find_none _ _ Hfind bytes Hin) in Hacc. done. }
  simpl in Hwf1.
  assert (Httl : or_int (PageCreate.ttl_seconds payload) DEFAULT_TTL_SECONDS
                 = match PageCreate.ttl_seconds payload with
                   | Some s => s
                   | None => 600
                   end).
  { unfold PageCreate.validated, or_int, DEFAULT_TTL_SECONDS in *.
    destruct (PageCreate.ttl_seconds payload) as [[| |]|]; (done || lia). }
  set (d := new_doc payload now (slug_of_draw 8 b) (next_oid (page w))) in *.
  eexists _, (after_insert_one d w), d, _.
  split; [done|]. split; [done|]. split; [done|]. split; [done|]. simpl.
  split; [by rewrite Httl|]. split; [by rewrite Httl|].
  intros es d0 x Hd0 Hx Hid.
  assert (x = d0) as ->; [|done].
  by apply (run_same_id es (after_insert_one d w)).
Qed.

(** ** The eager sweep *)

(** C2. One turn of the sweep on a store with unique identities, with any
    requests served between its steps: the deletion is [delete_many] on the
    identities of the records fetched at [now], applied to the store as it
    is then. No record that was stored with [expires_at <= now] remains; no
    record with [expires_at > now] is removed by it, and no record inserted
    after the query, whatever its expiry; when the interleaved requests read
    the clock at or after [now], no record with [expires_at <= now] remains
    at all. Without interleaved requests this is [cleanup_cycle], which
    always returns. *)
Theorem sweep_cycle_exact w now during before :
  wf_store (page w) ->
  let batch := filter (fun d => Doc.expires_at d <= now) (docs w) in
  let w4 := run before (exec (sweep_assets batch) (run during w)) in
  let w' := interleaved_cycle now during before w in
  docs w' = filter (fun d => Doc._id d ∉ (Doc._id <$> batch)) (docs w4)
  ∧ (batch ≠ [] -> log w' = (log w4 ++ [DeleteMany (Doc._id <$> batch)])%list)
  ∧ (∀ d, d ∈ docs w -> Doc.expires_at d <= now -> d ∉ docs w')
  ∧ (∀ d, d ∈ docs w4 -> now < Doc.expires_at d -> d ∈ docs w')
  ∧ (∀ d, d ∈ docs w4 -> d ∉ docs w -> d ∈ docs w')
  ∧ (Forall (after_snapshot now) (during ++ before)%list ->
     ∀ d, d ∈ docs w' -> now < Doc.expires_at d)
  ∧ cleanup_cycle now w = (Return tt, interleaved_cycle now [] [] w).
Proof.
  intros Hwf batch w4 w'.
  assert (Hdocs : docs w' = filter (fun d => Doc._id d ∉ (Doc._id <$> batch)) (docs w4)
                  ∧ (batch ≠ [] -> log w' = (log w4 ++ [DeleteMany (Doc._id <$> batch)])%list)).
  { subst w' w4. unfold interleaved_cycle, sweep_fetch, Db.find_expired.
    fold (docs w). fold batch. destruct batch as [|b bs] eqn:Hbatch.
    - simpl. split; [|done].
      change (exec (sweep_assets []) (run during w)) with (run during w).
      by rewrite filter_no_ids.
    - cbv iota. unfold nonempty. split; [done|]. by intros _. }
  destruct Hdocs as [Hdocs Hlog].
  (* where the records of [w4] come from *)
  assert (Horigin : ∀ d, d ∈ docs w4 ->
            d ∈ docs w
            ∨ (next_oid (page w) <= Doc._id d)%nat
              ∧ ∃ e payload urandom, e ∈ (during ++ before)%list
                  ∧ snd e = CreatePage payload urandom
                  ∧ Doc.created_at d = fst e
                  ∧ Doc.expires_at d =
                    Doc.created_at d
                    + timedelta (or_int (PageCreate.ttl_seconds payload)
                                   DEFAULT_TTL_SECONDS)).
  { intros d Hd. subst w4.
    pose proof (run_wf during w Hwf) as Hwf2.
    pose proof (run_next_oid during w Hwf) as Hn2.
    destruct (sweep_assets_spec batch (run during w)) as (w3 & Hrun & (Hp & _) & _).
    unfold exec in Hd. rewrite Hrun in Hd. simpl in Hd.
    assert (Hwf3 : wf_store (page w3)) by (by rewrite Hp).
    destruct (run_origin before w3 d Hwf3 Hd) as [Hin|(Hid & e & p & u & He & Hrest)].
    - unfold docs in Hin. rewrite Hp in Hin.
      destruct (run_origin during w d Hwf Hin) as [?|(Hid & e & p & u & He & Hrest)];
        [by left|].
      right. split; [done|]. exists e, p, u. split; [|done].
      apply elem_of_app. by left.
    - right. rewrite Hp in Hid. split; [lia|]. exists e, p, u.
      split; [|done]. apply elem_of_app. by right. }
  assert (Hfresh : ∀ d, d ∈ docs w4 -> d ∉ docs w -> Doc._id d ∉ (Doc._id <$> batch)).
  { intros d Hd Hnew (b & Hid & Hb)%list_elem_of_fmap.
    apply list_elem_of_filter in Hb as [_ Hb].
    destruct (Horigin d Hd) as [?|[Hge _]]; [done|].
    destruct Hwf as (_ & Hbelow & _). rewrite Forall_forall in Hbelow.
    apply Hbelow in Hb. lia. }
  split; [done|]. split; [done|]. split; [|split; [|split; [|split]]].
  - intros d Hd Hle. rewrite Hdocs. intros [Hid _]%list_elem_of_filter.
    apply Hid. apply list_elem_of_fmap_2. by apply list_elem_of_filter.
  - intros d Hd Hgt. rewrite Hdocs. apply list_elem_of_filter. split; [|done].
    destruct (decide (d ∈ docs w)) as [Hin|Hnew]; [|by apply Hfresh].
    intros (b & Hid & Hb)%list_elem_of_fmap.
    apply list_elem_of_filter in Hb as [Hble Hb].
    destruct Hwf as (Hids & _).
    rewrite (same_id_same_doc (docs w) d b Hids Hin Hb Hid) in Hgt. lia.
  - intros d Hd Hnew. rewrite Hdocs. apply list_elem_of_filter.
    split; [by apply Hfresh | done].
  - intros Hafter d Hd. rewrite Hdocs in Hd.
    apply list_elem_of_filter in Hd as [Hid Hd].
    destruct (Horigin d Hd) as [Hin|(_ & e & p & u & He & Hreq & Hc & Hexp)].
    + destruct (decide (Doc.expires_at d <= now)) as [Hle|?]; [|lia].
      exfalso. apply Hid. apply list_elem_of_fmap_2.
      by apply list_elem_of_filter.
    + rewrite Forall_forall in Hafter. destruct (Hafter e He) as [Hnow Hvalid].
      rewrite Hreq in Hvalid. rewrite Hexp, Hc.
      unfold PageCreate.validated, or_int, DEFAULT_TTL_SECONDS, timedelta in *.
      destruct (PageCreate.ttl_seconds p) as [[| |]|]; lia.
  - apply cleanup_cycle_eq.
Qed.

(** ** Slugs *)

Section slug_lemmas.
Implicit Types (s : string) (n : nat) (f : ascii -> bool).

Lemma take_length n s :
  String.length (Str.take n s) = Nat.min n (String.length s).
Proof.
  revert s. induction n as [|n IH]; intros [|a s]; simpl; try done.
  by rewrite IH.
Qed.

Lemma forallb_filter f s : Str.forallb f (Str.filter f s) = true.
Proof.
  induction s as [|a s IH]; [done|]. simpl.
  destruct (f a) eqn:Hfa; [|done]. simpl. by rewrite Hfa.
Qed.

Lemma forallb_take f n s :
  Str.forallb f s = true -> Str.forallb f (Str.take n s) = true.
Proof.
  revert s. induction n as [|n IH]; intros [|a s]; simpl; try done.
  intros [Ha Hs]%andb_true_iff. rewrite Ha. simpl. by apply IH.
Qed.


Lemma slug_of_draw_shape n bytes :
  (String.length (slug_of_draw n bytes) <= n)%nat
  ∧ Str.forallb Str.alnum (slug_of_draw n bytes) = true
  ∧ ((n <= String.length (Str.filter Str.alnum (Secrets.token_urlsafe bytes)))%nat ->
     String.length (slug_of_draw n bytes) = n).
Proof.
  unfold slug_of_draw. rewrite take_length.
  split; [lia|]. split; [apply forallb_take, forallb_filter | lia].
Qed.

End slug_lemmas.


(** C5. The slug that [generate_slug] returns is the slug of no stored
    record, alive or not: the test counts the records with that slug and
    never looks at [expires_at] or the clock. Two pages created one after
    the other, at any times, get different slugs. *)
Theorem generated_slug_not_stored w :
  (∀ length urandom slug w',
     generate_slug length urandom w = (Return slug, w') ->
     w' = w ∧ ∀ d, d ∈ docs w -> Doc.slug d ≠ slug)
  ∧ (∀ p1 t1 u1 r1 w1 p2 t2 u2 r2 w2,
       create_page p1 t1 u1 w = (Return r1, w1) ->
       create_page p2 t2 u2 w1 = (Return r2, w2) ->
       Created.slug r1 ≠ Created.slug r2).
Proof.
  split.
  - intros length urandom slug w'. rewrite generate_slug_find.
    destruct (List.find _ _) as [b|] eqn:Hfind; [|done].
    intros [= <- <-]. apply find_some in Hfind as [_ Hacc].
    apply acceptable_spec in Hacc as [_ Hfresh]. by split.
  - intros p1 t1 u1 r1 w1 p2 t2 u2 r2 w2. rewrite !create_page_eq.
    destruct (List.find _ u1) as [b1|]; [|done]. simpl.
    intros [= <- <-].
    destruct (List.find _ u2) as [b2|] eqn:Hfind; [|done]. simpl.
    intros [= <- <-]. simpl. apply find_some in Hfind as [_ Hacc].
    apply acceptable_spec in Hacc as [_ Hfresh].
    apply (Hfresh (new_doc p1 t1 (slug_of_draw 8 b1) (next_oid (page w)))).
    unfold docs. simpl. apply elem_of_app. right.
    by apply list_elem_of_singleton.
Qed.


(** Every store that a run of the service builds from an empty one is well
    formed. *)
Lemma reachable_wf es fs lg :
  wf_store (page (run es {| page := {| documents := []; next_oid := 0 |};
                            disk := fs; log := lg |})).
Proof.
  apply run_wf. unfold wf_store. simpl.
  split; [constructor|]. split; constructor.
Qed.

(** Scenario A of the specification: a page with a TTL of 60 s is read at
    once, then 61 s later, then again. *)
Example scenario_a :
  let w1 := Sample.stored in
  let w2 := exec (get_page "aGVsbG8h" 61000000) w1 in
  fst (get_page "aGVsbG8h" 0 w1) = Return (page_data Sample.record 0)
  ∧ PageData.remaining_seconds (page_data Sample.record 0) = 60
  ∧ fst (get_page "aGVsbG8h" 61000000 w1) = Raise (HTTPException 410 "Expired")
  ∧ fst (get_page "aGVsbG8h" 61000001 w2) = Raise (HTTPException 404 "Not found").
Proof. vm_compute. done. Qed.

(** ** The properties on the sample data *)

Lemma get_page_expired_deletes_then_rejects_witness :
  ∃ w' paths,
    get_page "aGVsbG8h" 61000000 Sample.stored
    = (Raise (HTTPException 410 "Expired"), w')
    ∧ log w' = (log Sample.stored ++ DeleteOne 0 :: (OsRemove <$> paths))%list.
Proof.
  assert (Hwf : wf_store (page Sample.stored)) by by_evaluation.
  assert (Hin : Sample.record ∈ docs Sample.stored) by by_evaluation.
  assert (Hle : Doc.expires_at Sample.record <= 61000000) by (vm_compute; done).
  destruct (get_page_expired_deletes_then_rejects
              Sample.stored Sample.record 61000000 Hwf Hin Hle)
    as (w' & paths & Hget & _ & Hlog & _).
  exists w', paths. split; [exact Hget | exact Hlog].
Defined.


Lemma expired_signal_once_witness :
  get_page "aGVsbG8h" 70000000
    (run [(65000000, Sweep)] (exec (get_page "aGVsbG8h" 61000000) Sample.stored))
  = (Raise (HTTPException 404 "Not found"),
     run [(65000000, Sweep)] (exec (get_page "aGVsbG8h" 61000000) Sample.stored)).
Proof.
  assert (Hwf : wf_store (page Sample.stored)) by by_evaluation.
  assert (Hin : Sample.record ∈ docs Sample.stored) by by_evaluation.
  assert (Hle : Doc.expires_at Sample.record <= 61000000) by (vm_compute; done).
  apply (proj2 (proj2 (expired_signal_once
                         Sample.stored Sample.record 61000000 Hwf Hin Hle))
           [(65000000, Sweep)]).
  simpl. split; [discriminate | exact I].
Defined.

(** The slug of a deleted record can be drawn again: the page created at
    62 s on the same random bytes expires in its turn, and a read of the
    slug raises the 410 a second time. *)
Lemma expired_signal_twice_counterexample :
  wf_store (page Sample.stored)
  ∧ Sample.record ∈ docs Sample.stored
  ∧ Doc.expires_at Sample.record <= 61000000
  ∧ fst (get_page "aGVsbG8h" 61000000 Sample.stored)
    = Raise (HTTPException 410 "Expired")
  ∧ fst (get_page "aGVsbG8h" 123000000
           (run [(62000000, CreatePage Sample.payload [Sample.hello])]
              (exec (get_page "aGVsbG8h" 61000000) Sample.stored)))
    = Raise (HTTPException 410 "Expired").
Proof.
  split; [by_evaluation|]. split; [by_evaluation|].
  split; [vm_compute; done|]. split; vm_compute; reflexivity.
Qed.

Lemma read_before_expiry_returns_stored_witness :
  ∃ data,
    get_page "aGVsbG8h" 30000000
      (run [(10000000, Sweep); (20000000, ViewPage "aGVsbG8h")] Sample.stored)
    = (Return data,
       run [(10000000, Sweep); (20000000, ViewPage "aGVsbG8h")] Sample.stored)
    ∧ PageData.slug data = "aGVsbG8h"
    ∧ PageData.html data = "<h1>hi</h1>"
    ∧ PageData.assets data = ["/uploads/a.png"; "b.png"; "missing.png"]
    ∧ PageData.expires_at data = 60000000.
Proof.
  assert (Hwf : wf_store (page Sample.start)) by by_evaluation.
  assert (Hcreate : create_page Sample.payload 0 [Sample.hello] Sample.start
                    = (Return Sample.created, Sample.stored))
    by (vm_compute; reflexivity).
  apply (read_before_expiry_returns_stored
           Sample.start Sample.payload 0 [Sample.hello]
           Sample.created Sample.stored Hwf Hcreate
           [(10000000, Sweep); (20000000, ViewPage "aGVsbG8h")] 30000000).
  - repeat constructor; simpl; lia.
  - simpl; lia.
Defined.


Lemma create_page_sets_expiry_once_witness :
  ∃ r w1 d,
    create_page Sample.payload 0 [Sample.hello] Sample.start = (Return r, w1)
    ∧ docs w1 = [d]
    ∧ Doc.expires_at d = Doc.created_at d + timedelta 60.
Proof.
  assert (Hwf : wf_store (page Sample.start)) by by_evaluation.
  assert (Hvalid : PageCreate.validated Sample.payload) by (vm_compute; done).
  assert (Hin : Sample.hello ∈ [Sample.hello]) by constructor.
  assert (Hacc : acceptable 8 Sample.start Sample.hello = true)
    by (vm_compute; reflexivity).
  destruct (create_page_sets_expiry_once
              Sample.start Sample.payload 0 [Sample.hello] Sample.hello
              Hwf Hvalid Hin Hacc)
    as (r & w1 & d & ttl & Hcreate & Hdocs & Httl & _ & Hexp & _).
  exists r, w1, d. split; [exact Hcreate|]. split; [exact Hdocs|].
  rewrite Hexp, Httl. reflexivity.
Defined.

Lemma sweep_cycle_exact_witness :
  docs (interleaved_cycle 61000000
          [(62000000, CreatePage Sample.payload [Sample.hello; Sample.ones])]
          [(63000000, GetPage "aGVsbG8h")] Sample.stored)
  = filter (fun d => Doc._id d ∉
              (Doc._id <$> filter (fun d => Doc.expires_at d <= 61000000)
                             (docs Sample.stored)))
      (docs (run [(63000000, GetPage "aGVsbG8h")]
               (exec (sweep_assets
                        (filter (fun d => Doc.expires_at d <= 61000000)
                           (docs Sample.stored)))
                  (run [(62000000,
                         CreatePage Sample.payload [Sample.hello; Sample.ones])]
                     Sample.stored)))).
Proof.
  assert (Hwf : wf_store (page Sample.stored)) by by_evaluation.
  exact (proj1 (sweep_cycle_exact Sample.stored 61000000
                  [(62000000, CreatePage Sample.payload [Sample.hello; Sample.ones])]
                  [(63000000, GetPage "aGVsbG8h")] Hwf)).
Defined.

(** The sweep of the example above deletes the expired record and keeps
    the page that was created after its query. *)
Example sweep_keeps_new_page :
  Doc.slug <$> docs (interleaved_cycle 61000000
                       [(62000000, CreatePage Sample.payload [Sample.hello; Sample.ones])]
                       [(63000000, GetPage "aGVsbG8h")] Sample.stored)
  = ["8"].
Proof. vm_compute. reflexivity. Qed.



(** With length 0 every token is empty, and the loop never returns. *)
Lemma generate_slug_zero_hangs urandom w :
  Forall (fun bytes => List.length bytes = 0%nat) urandom ->
  generate_slug 0 urandom w = (Hang, w).
Proof.
  intros Hdraws. rewrite generate_slug_find.
  destruct (List.find _ _) as [b|] eqn:Hfind; [|done].
  apply find_some in Hfind as [_ Hacc]. by destruct b.
Qed.

(** The second page is created at 100 s, when the first record has expired
    and was not swept: its slug is still taken, the draw [hello] is
    refused, and the next draw gives the slug. *)
Lemma generated_slug_not_stored_witness :
  fst (create_page Sample.payload 100000000 [Sample.hello; Sample.ones]
         Sample.stored)
  = Return {| Created.slug := "8"; Created.url := "/p/8";
              Created.expires_at := 160000000; Created.ttl_seconds := 60 |}
  ∧ Created.slug Sample.created ≠ "8".
Proof.
  assert (H1 : create_page Sample.payload 0 [Sample.hello] Sample.start
               = (Return Sample.created, Sample.stored))
    by (vm_compute; reflexivity).
  pose (r2 := {| Created.slug := "8"; Created.url := "/p/8";
                 Created.expires_at := 160000000; Created.ttl_seconds := 60 |}).
  assert (H2 : create_page Sample.payload 100000000 [Sample.hello; Sample.ones]
                 Sample.stored
               = (Return r2, exec (create_page Sample.payload 100000000
                                     [Sample.hello; Sample.ones]) Sample.stored))
    by (vm_compute; reflexivity).
  split; [by rewrite H2|].
  exact (proj2 (generated_slug_not_stored Sample.start) _ _ _ _ _ _ _ _ _ _ H1 H2).
Defined.


(** Scenario C of the specification: of three references, two resolve and
    one names no file; after the expiry the two files are gone, the third
    reference raised nothing, and the file that no reference names is
    untouched. *)
Example scenario_c :
  elements (files (disk (exec (get_page "aGVsbG8h" 61000000) Sample.stored)))
  = ["/srv/app/static/logo.png"].
Proof. vm_compute. reflexivity. Qed.

(** Best effort: when the system refuses the removal of one asset, the read
    still deletes the record, removes the other asset and raises the 410. *)
Example refused_removal_is_swallowed :
  let w := {| page := page Sample.stored;
              disk := {| cwd := "/srv/app";
                         files := files Sample.fs;
                         denied := {["/srv/app/uploads/a.png"]} |};
              log := [] |} in
  fst (get_page "aGVsbG8h" 61000000 w) = Raise (HTTPException 410 "Expired")
  ∧ docs (exec (get_page "aGVsbG8h" 61000000) w) = []
  ∧ elements (files (disk (exec (get_page "aGVsbG8h" 61000000) w)))
    = ["/srv/app/static/logo.png"; "/srv/app/uploads/a.png"]
  ∧ log (exec (get_page "aGVsbG8h" 61000000) w)
    = [DeleteOne 0; OsRemove "/srv/app/uploads/a.png";
       OsRemove "/srv/app/uploads/b.png"].
Proof. vm_compute. done. Qed.

(** * More of the program *)

(** ** The page that [view_page] builds *)

Section rendering.
Implicit Types (w : world) (d : Doc.t) (s : string) (now : Z).

(** The template has [(function(){], a single brace that opens a field
    whose name runs into the doubled brace of the next line. *)
Lemma timer_html_raises (remaining : Z) :
  Html.timer_html remaining
  = Some (inl (Format.ValueError "unexpected '{' in field name")).
Proof. vm_compute. reflexivity. Qed.

(** With its text or without, [view_page] leaves the same world. *)
Lemma html_view_page_world s now w :
  snd (Html.view_page s now w) = exec (view_page s now) w.
Proof.
  unfold exec. destruct (lookup s w) as [d|] eqn:Hfind.
  - destruct (decide (Doc.expires_at d <= now)) as [Hle|Hgt].
    + destruct (remove_assets_spec (Doc.assets d) (after_delete_one (Doc._id d) w))
        as (w' & Hrun & _).
      assert (Hview : view_page s now w
                      = (Return {| HTMLResponse.status_code := 410;
                                   HTMLResponse.content := HTMLResponse.ExpiredNotice |},
                         w')).
      { unfold lookup, docs in Hfind.
        unfold view_page, bind at 1, Db.find_one. rewrite Hfind.
        rewrite bool_decide_eq_true_2 by done. cbv iota.
        rewrite (bind_return _ _ _ _ _ (delete_one_eq _ _)).
        by rewrite (bind_return _ _ _ _ _ Hrun). }
      rewrite Hview. unfold lookup, docs in Hfind.
      unfold Html.view_page, Db.find_one. rewrite Hfind.
      rewrite bool_decide_eq_true_2 by done.
      rewrite (bind_return _ _ _ _ _ (delete_one_eq _ _)). by rewrite Hrun.
    + rewrite (view_page_alive s now w d Hfind) by lia.
      unfold lookup, docs in Hfind.
      unfold Html.view_page, Db.find_one. rewrite Hfind.
      rewrite bool_decide_eq_false_2 by lia. by rewrite timer_html_raises.
  - rewrite (view_page_not_found s now w Hfind).
    unfold lookup, docs in Hfind.
    unfold Html.view_page, Db.find_one. by rewrite Hfind.
Qed.

End rendering.

(** X1. For a live record, [view_page] never builds the page: formatting
    the timer template raises [ValueError], whatever the record and the
    time, so the client gets a server error instead of the content, while
    [get_page] returns the record; the world is left as it was. *)
Theorem view_page_live_never_renders s now w d :
  lookup s w = Some d -> now < Doc.expires_at d ->
  Html.view_page s now w
  = (Html.Failed (Html.FormatError
       (Format.ValueError "unexpected '{' in field name")), w)
  ∧ Html.status (fst (Html.view_page s now w)) = Some 500
  ∧ get_page s now w = (Return (page_data d now), w).
Proof.
  intros Hfind Hlt.
  assert (Hview : Html.view_page s now w
                  = (Html.Failed (Html.FormatError
                       (Format.ValueError "unexpected '{' in field name")), w)).
  { unfold lookup, docs in Hfind. unfold Html.view_page, Db.find_one.
    rewrite Hfind. rewrite bool_decide_eq_false_2 by lia.
    by rewrite timer_html_raises. }
  rewrite Hview. split; [done|]. split; [done|]. by apply get_page_alive.
Qed.

(** X2. [get_page] returns content only of a stored record that has not
    expired at the time of the read, and then changes nothing; it raises
    nothing but the 404, which changes nothing either, and the 410; and it
    always comes back. *)
Theorem get_page_returns_only_live s now w :
  (∀ data w', get_page s now w = (Return data, w') ->
     w' = w
     ∧ ∃ d, d ∈ docs w ∧ Doc.slug d = s ∧ now < Doc.expires_at d
            ∧ data = page_data d now
            ∧ 0 <= PageData.remaining_seconds data)
  ∧ (∀ e w', get_page s now w = (Raise e, w') ->
       e = HTTPException 404 "Not found" ∧ w' = w
       ∨ e = HTTPException 410 "Expired"
         ∧ ∃ d, d ∈ docs w ∧ Doc.slug d = s ∧ Doc.expires_at d <= now)
  ∧ fst (get_page s now w) ≠ Hang.
Proof.
  destruct (lookup s w) as [d|] eqn:Hfind.
  - destruct (head_filter_elem _ _ _ Hfind) as [Hd Hs].
    destruct (decide (Doc.expires_at d <= now)) as [Hle|Hgt].
    + destruct (get_page_expired s now w d Hfind Hle) as (w1 & -> & _).
      split; [done|]. split; [|done].
      intros e w' [= <- <-]. right. split; [done|]. by exists d.
    + rewrite (get_page_alive s now w d Hfind) by lia.
      split; [|done]. intros data w' [= <- <-]. split; [done|].
      exists d. split; [done|]. split; [done|]. split; [lia|].
      split; [done|]. simpl. lia.
  - rewrite (get_page_not_found s now w Hfind).
    split; [done|]. split; [|done]. intros e w' [= <- <-]. by left.
Qed.

(** ** What every stored record looks like *)

Section stored_records.
Implicit Types (w : world) (d : Doc.t) (e : event) (es : list event).

Lemma inserted_ok e w d :
  inserted e w = Some d ->
  match snd e with
  | CreatePage payload _ => PageCreate.validated payload
  | _ => True
  end ->
  record_ok d.
Proof.
  destruct e as [now [payload urandom| | |]]; simpl; try done.
  destruct (List.find _ _) as [bytes|] eqn:Hfind; [|done].
  intros [= <-] Hvalid. apply find_some in Hfind as [_ Hacc].
  apply acceptable_spec in Hacc as [Hne _].
  destruct (slug_of_draw_shape 8 bytes) as (Hlen & Halnum & _).
  unfold record_ok. simpl.
  split; [done|]. split; [done|]. split; [done|].
  unfold PageCreate.validated, or_int, DEFAULT_TTL_SECONDS, timedelta in *.
  destruct (PageCreate.ttl_seconds payload) as [[| |]|]; lia.
Qed.

End stored_records.

(** X3. Requests and sweeps keep the store well formed: starting from a
    well-formed store of such records, after any run whose create requests
    passed validation, identities and slugs are still pairwise distinct, and
    every stored record has a non-empty alphanumeric slug of at most eight
    characters and expires between 60 and 86400 seconds after its
    creation. *)
Theorem run_keeps_records_ok es w :
  wf_store (page w) -> Forall record_ok (docs w) -> validated_requests es ->
  wf_store (page (run es w)) ∧ Forall record_ok (docs (run es w)).
Proof.
  revert w. induction es as [|e es IH]; intros w Hwf Hok Hvalid; [done|].
  apply Forall_cons in Hvalid as [He Hes]. rewrite run_cons.
  destruct (step_page e w Hwf) as (Hwf' & _ & Horigin & _).
  apply IH; [done| |done].
  rewrite Forall_forall in *. intros d Hd.
  destruct (Horigin d Hd) as [Hin|Hins]; [by apply Hok|].
  by apply (inserted_ok e w).
Qed.

Lemma run_keeps_records_ok_witness :
  Forall record_ok
    (docs (run [(0, CreatePage Sample.payload [Sample.hello]);
                (1000000, ViewPage "aGVsbG8h");
                (2000000, CreatePage Sample.payload [Sample.hello; Sample.dashes]);
                (61000000, Sweep)] Sample.start)).
Proof.
  assert (Hwf : wf_store (page Sample.start)) by by_evaluation.
  assert (Hok : Forall record_ok (docs Sample.start)) by constructor.
  apply (run_keeps_records_ok _ Sample.start Hwf Hok).
  repeat constructor; vm_compute; done.
Defined.

(** ** The sweep and its assets *)

Section sweep_assets_lemmas.
Implicit Types (w : world) (d : Doc.t) (ds : list Doc.t) (now : Z).

Lemma filter_none (P : Doc.t -> Prop) {Pdec : ∀ d, Decision (P d)} ds :
  (∀ d, d ∈ ds -> ¬ P d) -> filter P ds = [].
Proof.
  intros Hnone. apply (head_filter_none P) in Hnone.
  by destruct (filter P ds).
Qed.

Lemma cleanup_cycle_nothing_expired now w :
  (∀ d, d ∈ docs w -> now < Doc.expires_at d) ->
  cleanup_cycle now w = (Return tt, w).
Proof.
  intros Hlive. rewrite cleanup_cycle_eq.
  unfold interleaved_cycle, sweep_fetch, Db.find_expired. fold (docs w).
  rewrite (filter_none (fun d => Doc.expires_at d <= now)); [done|].
  intros d Hd. specialize (Hlive d Hd). lia.
Qed.

End sweep_assets_lemmas.

(** X4. One turn of the sweep always returns, never adds a file, and
    leaves behind no resolved asset file of a record that had expired,
    unless the system refuses its removal; when something had expired it
    first makes its [os.remove] calls and then the one [delete_many], and
    when nothing had expired it makes no call at all. *)
Theorem cleanup_cycle_removes_assets now w :
  ∃ w' paths,
    cleanup_cycle now w = (Return tt, w')
    ∧ files (disk w') ⊆ files (disk w)
    ∧ (∀ d asset path, d ∈ docs w -> Doc.expires_at d <= now ->
         asset ∈ Doc.assets d -> resolve (disk w) asset = Some path ->
         path ∉ denied (disk w) -> path ∉ files (disk w'))
    ∧ (filter (fun d => Doc.expires_at d <= now) (docs w) ≠ [] ->
         log w' = (log w ++ (OsRemove <$> paths)
                   ++ [DeleteMany (Doc._id <$> filter (fun d => Doc.expires_at d <= now)
                                                  (docs w))])%list)
    ∧ (filter (fun d => Doc.expires_at d <= now) (docs w) = [] -> w' = w).
Proof.
  rewrite cleanup_cycle_eq.
  unfold interleaved_cycle, sweep_fetch, Db.find_expired. fold (docs w).
  destruct (filter _ (docs w)) as [|b bs] eqn:Hbatch.
  - exists w, []. simpl. split; [done|]. split; [done|]. split; [|done].
    intros d asset path Hd Hle. exfalso.
    assert (Hin : d ∈ filter (fun d => Doc.expires_at d <= now) (docs w))
      by by apply list_elem_of_filter.
    rewrite Hbatch in Hin. inversion Hin.
  - cbv iota. unfold nonempty.
    destruct (sweep_assets_spec (b :: bs) w)
      as (w2 & Hrun & (Hp & Hc & Hdn & Hsub & paths & Hlog) & Hgone).
    unfold exec. change (run [] w) with w. rewrite Hrun.
    change (run [] (Return (), w2).2) with w2.
    exists (after_delete_many (Doc._id <$> b :: bs) w2), paths.
    split; [done|]. split; [done|]. split; [|split; [|done]].
    + intros d asset path Hd Hle Ha. apply (Hgone d); [|done].
      rewrite <- Hbatch. by apply list_elem_of_filter.
    + intros _. simpl. rewrite Hlog. by rewrite <- app_assoc.
Qed.

(** X5. The sweep is idempotent: a turn of it that finds nothing expired
    changes nothing at all, and after a turn at [now] a further turn at
    [now] or at an earlier time finds nothing. *)
Theorem cleanup_cycle_idempotent now w :
  ((∀ d, d ∈ docs w -> now < Doc.expires_at d) ->
   cleanup_cycle now w = (Return tt, w))
  ∧ ∀ earlier, earlier <= now ->
      cleanup_cycle earlier (exec (cleanup_cycle now) w)
      = (Return tt, exec (cleanup_cycle now) w).
Proof.
  split; [apply cleanup_cycle_nothing_expired|].
  intros earlier Hle. apply cleanup_cycle_nothing_expired.
  unfold exec. rewrite cleanup_cycle_eq. simpl.
  destruct (sweep_page now w) as [Hdocs _]. rewrite Hdocs.
  intros d [Hid Hd]%list_elem_of_filter.
  destruct (decide (Doc.expires_at d <= now)) as [Hexp|?]; [|lia].
  exfalso. apply Hid. apply list_elem_of_fmap_2. by apply list_elem_of_filter.
Qed.

(** ** Lazy and eager expiry of the same record *)

Section lazy_and_eager.
Implicit Types (w : world) (d : Doc.t) (ds : list Doc.t) (now : Z).

Lemma filter_only (P : Doc.t -> Prop) {Pdec : ∀ d, Decision (P d)} ds d :
  NoDup ds -> d ∈ ds -> P d -> (∀ x, x ∈ ds -> x ≠ d -> ¬ P x) ->
  filter P ds = [d].
Proof.
  induction ds as [|a ds IH]; intros Hnd Hd HP Hothers; [inversion Hd|].
  apply NoDup_cons in Hnd as [Ha Hnd]. rewrite filter_cons.
  apply elem_of_cons in Hd as [->|Hd].
  - rewrite decide_True by done. f_equal. apply filter_none.
    intros x Hx. apply Hothers; [by right|]. by intros ->.
  - rewrite decide_False.
    + apply IH; try done. intros x Hx. apply Hothers. by right.
    + apply Hothers; [by left|]. by intros ->.
Qed.

Lemma filter_all (P : Doc.t -> Prop) {Pdec : ∀ d, Decision (P d)} ds :
  (∀ d, d ∈ ds -> P d) -> filter P ds = ds.
Proof.
  induction ds as [|a ds IH]; intros Hall; [done|].
  rewrite filter_cons_True by (apply Hall; by left).
  rewrite IH; [done|]. intros x Hx. apply Hall. by right.
Qed.

Lemma drop_first_filter oid ds :
  NoDup (Doc._id <$> ds) ->
  drop_first oid ds = filter (fun d => Doc._id d ∉ [oid]) ds.
Proof.
  induction ds as [|a ds IH]; intros Hnd; [done|].
  rewrite fmap_cons in Hnd. apply NoDup_cons in Hnd as [Ha Hnd].
  simpl. rewrite filter_cons. destruct (decide (Doc._id a = oid)) as [Heq|Hne].
  - rewrite decide_False by (rewrite list_elem_of_singleton; tauto).
    symmetry. apply filter_all. intros x Hx Hid.
    apply list_elem_of_singleton in Hid. apply Ha.
    rewrite Heq, <- Hid. by apply list_elem_of_fmap_2.
  - rewrite decide_True by (by rewrite list_elem_of_singleton).
    by rewrite (IH Hnd).
Qed.

(** What the removal of assets does to the files depends on the files
    only. *)
Lemma remove_assets_disk assets w1 w2 :
  disk w1 = disk w2 ->
  disk (snd (for_each assets remove_asset w1))
  = disk (snd (for_each assets remove_asset w2)).
Proof.
  revert w1 w2. induction assets as [|a assets IH]; intros w1 w2 Hdisk; [done|].
  simpl. unfold bind. rewrite !remove_asset_resolve. apply IH.
  rewrite Hdisk. destruct (resolve (disk w2) a); [|done].
  unfold unlink. simpl. by rewrite Hdisk.
Qed.

End lazy_and_eager.

(** X6. Lazy and eager expiry converge: when one stored record has expired
    and no other, a read of its slug and a turn of the sweep at that time
    leave the same store and the same files. *)
Theorem lazy_and_eager_expiry_agree w d now :
  wf_store (page w) -> d ∈ docs w -> Doc.expires_at d <= now ->
  (∀ x, x ∈ docs w -> x ≠ d -> now < Doc.expires_at x) ->
  page (exec (get_page (Doc.slug d) now) w) = page (exec (cleanup_cycle now) w)
  ∧ disk (exec (get_page (Doc.slug d) now) w) = disk (exec (cleanup_cycle now) w).
Proof.
  intros Hwf Hd Hle Hothers. pose proof Hwf as (Hids & _ & _).
  assert (Hbatch : filter (fun x => Doc.expires_at x <= now) (docs w) = [d]).
  { apply filter_only; try done.
    - by apply (NoDup_fmap_1 Doc._id).
    - intros x Hx Hne. specialize (Hothers x Hx Hne). lia. }
  (* the read *)
  pose proof (lookup_stored w d Hwf Hd) as Hfind.
  destruct (remove_assets_spec (Doc.assets d) (after_delete_one (Doc._id d) w))
    as (w1 & Hrun1 & (Hp1 & _) & _).
  assert (Hget : get_page (Doc.slug d) now w
                 = (Raise (HTTPException 410 "Expired"), w1)).
  { unfold lookup, docs in Hfind. unfold get_page, bind at 1, Db.find_one.
    rewrite Hfind. rewrite bool_decide_eq_true_2 by done. cbv iota.
    rewrite (bind_return _ _ _ _ _ (delete_one_eq _ _)).
    by rewrite (bind_return _ _ _ _ _ Hrun1). }
  (* the sweep *)
  destruct (remove_assets_spec (Doc.assets d) w) as (w2 & Hrun2 & (Hp2 & _) & _).
  assert (Hsweep : cleanup_cycle now w
                   = (Return tt, after_delete_many [Doc._id d] w2)).
  { rewrite cleanup_cycle_eq.
    unfold interleaved_cycle, sweep_fetch, Db.find_expired. fold (docs w).
    rewrite Hbatch. cbv iota. unfold nonempty, exec.
    change (run [] w) with w. rewrite sweep_assets_flat.
    change ([d] ≫= Doc.assets) with (Doc.assets d ++ [])%list.
    rewrite app_nil_r, Hrun2. done. }
  unfold exec. rewrite Hget, Hsweep. simpl. split.
  - rewrite Hp1. unfold docs. rewrite Hp2. simpl.
    by rewrite (drop_first_filter _ _ Hids).
  - pose proof (remove_assets_disk (Doc.assets d)
                  (after_delete_one (Doc._id d) w) w eq_refl) as Hdisk.
    by rewrite Hrun1, Hrun2 in Hdisk.
Qed.

Lemma lazy_and_eager_expiry_agree_witness :
  page (exec (get_page "aGVsbG8h" 61000000) Sample.stored)
  = page (exec (cleanup_cycle 61000000) Sample.stored)
  ∧ disk (exec (get_page "aGVsbG8h" 61000000) Sample.stored)
    = disk (exec (cleanup_cycle 61000000) Sample.stored).
Proof.
  assert (Hwf : wf_store (page Sample.stored)) by by_evaluation.
  assert (Hin : Sample.record ∈ docs Sample.stored) by by_evaluation.
  assert (Hle : Doc.expires_at Sample.record <= 61000000) by (vm_compute; done).
  apply (lazy_and_eager_expiry_agree Sample.stored Sample.record 61000000
           Hwf Hin Hle).
  intros x Hx Hne. apply list_elem_of_singleton in Hx. done.
Defined.

(** ** Tokens and paths *)

Section tokens_and_paths.
Implicit Types (s a b c : string) (x : ascii) (bs : list byte).

Lemma list_ind3 {A} (P : list A -> Prop) :
  P [] -> (∀ u, P [u]) -> (∀ u v, P [u; v]) ->
  (∀ u v t l, P l -> P (u :: v :: t :: l)) ->
  ∀ l, P l.
Proof.
  intros H0 H1 H2 H3. fix IH 1.
  intros [|u [|v [|t l]]]; [apply H0 | apply H1 | apply H2 | apply H3, IH].
Qed.

Lemma digit_safe i : url_safe (Secrets.digit i) = true.
Proof.
  unfold Secrets.digit.
  assert (Hall : List.forallb url_safe Secrets.alphabet = true) by reflexivity.
  rewrite forallb_forall in Hall.
  destruct (nth_in_or_default (N.to_nat i) Secrets.alphabet "A"%char) as [Hin| ->];
    [by apply Hall | reflexivity].
Qed.

Lemma rstrip_cons_safe x s :
  url_safe x = true ->
  Str.rstrip Secrets.pad (String x s) = String x (Str.rstrip Secrets.pad s).
Proof.
  intros Hx. simpl. destruct (Str.rstrip Secrets.pad s); [|done].
  destruct (Ascii.eqb_spec x Secrets.pad) as [->|]; [discriminate | done].
Qed.

(** A token has ceil(4n/3) characters for n bytes, all of them letters,
    digits, [-] or [_]. *)
Lemma token_urlsafe_shape bs :
  Str.forallb url_safe (Secrets.token_urlsafe bs) = true
  ∧ String.length (Secrets.token_urlsafe bs)
    = ((4 * List.length bs + 2) / 3)%nat.
Proof.
  unfold Secrets.token_urlsafe.
  induction bs as [|u|u v|u v t l [IHsafe IHlen]] using list_ind3.
  - done.
  - simpl Secrets.urlsafe_b64encode.
    rewrite !rstrip_cons_safe by apply digit_safe.
    simpl. by rewrite !digit_safe.
  - simpl Secrets.urlsafe_b64encode.
    rewrite !rstrip_cons_safe by apply digit_safe.
    simpl. by rewrite !digit_safe.
  - simpl Secrets.urlsafe_b64encode.
    rewrite !rstrip_cons_safe by apply digit_safe.
    split.
    + simpl. by rewrite !digit_safe, IHsafe.
    + simpl String.length. rewrite IHlen. simpl List.length.
      replace (4 * S (S (S (List.length l))) + 2)%nat
        with ((4 * List.length l + 2) + 4 * 3)%nat by lia.
      rewrite Nat.div_add by lia. lia.
Qed.

Lemma forallb_app f a b :
  Str.forallb f (a ++ b) = Str.forallb f a && Str.forallb f b.
Proof.
  induction a as [|x a IH]; [done|]. simpl. by rewrite IH, andb_assoc.
Qed.

Lemma forallb_impl (f g : ascii -> bool) s :
  (∀ x, f x = true -> g x = true) ->
  Str.forallb f s = true -> Str.forallb g s = true.
Proof.
  intros Himpl. induction s as [|x s IH]; [done|]. simpl.
  intros [Hx Hs]%andb_true_iff. by rewrite (Himpl x Hx), IH.
Qed.

Lemma url_safe_no_sep x : url_safe x = true -> no_sep x = true.
Proof.
  unfold no_sep. destruct (Ascii.eqb_spec x Posix.sep) as [->|]; [|done].
  discriminate.
Qed.

Lemma image_ext_no_sep content_type :
  Str.forallb no_sep (image_ext content_type) = true.
Proof. unfold image_ext. by repeat destruct (String.eqb _ _). Qed.

(** The name under which an upload is stored has no separator. *)
Lemma stored_name_no_sep bs content_type :
  Str.forallb no_sep (Secrets.token_urlsafe bs ++ image_ext content_type) = true.
Proof.
  rewrite forallb_app, image_ext_no_sep, andb_true_r.
  apply (forallb_impl url_safe); [apply url_safe_no_sep|].
  apply token_urlsafe_shape.
Qed.

Lemma no_sep_startswith s :
  Str.forallb no_sep s = true -> Str.startswith Posix.sep s = false.
Proof.
  destruct s as [|x s]; [done|]. simpl. unfold no_sep.
  intros [Hx _]%andb_true_iff. by destruct (Ascii.eqb x Posix.sep).
Qed.

Lemma append_assoc a b c : (a ++ b) ++ c = a ++ (b ++ c).
Proof.
  induction a as [|x a IH]; [done|].
  change (String x ((a ++ b) ++ c) = String x (a ++ (b ++ c))).
  by rewrite IH.
Qed.

Lemma endswith_app x a b :
  b ≠ EmptyString -> Str.endswith x (a ++ b) = Str.endswith x b.
Proof.
  intros Hb. induction a as [|y a IH]; [done|].
  simpl. destruct (a ++ b) eqn:Hab; [|done].
  destruct a, b; done.
Qed.

Lemma truthy_app a b : b ≠ EmptyString -> Str.truthy (a ++ b) = true.
Proof. intros Hb. destruct a, b; done. Qed.

(** Joining a name to the upload directory, and joining [uploads/name] to
    the working directory, give the same path. *)
Lemma join_uploads root name :
  Str.startswith Posix.sep name = false ->
  Posix.join (Posix.join root "uploads") name
  = Posix.join root ("uploads/" ++ name).
Proof.
  intros Hname. unfold Posix.join at 1 3. rewrite Hname.
  change (Str.startswith Posix.sep ("uploads/" ++ name)) with false.
  unfold Posix.join. change (Str.startswith Posix.sep "uploads") with false.
  cbv iota.
  destruct (negb (Str.truthy root) || Str.endswith Posix.sep root).
  - rewrite truthy_app, endswith_app by done. simpl.
    by rewrite append_assoc.
  - change (String Posix.sep "uploads") with ("/" ++ "uploads").
    rewrite truthy_app, endswith_app by done. simpl.
    by rewrite !append_assoc.
Qed.

Lemma basename_no_sep s : Str.forallb no_sep s = true -> Posix.basename s = s.
Proof.
  destruct s as [|x s]; [done|]. simpl. unfold no_sep at 1.
  intros [Hx Hs]%andb_true_iff.
  destruct (Ascii.eqb x Posix.sep); [done|].
  change (Str.forallb (fun y => negb (Ascii.eqb y Posix.sep)) s)
    with (Str.forallb no_sep s).
  by rewrite Hs.
Qed.

Lemma basename_after_sep a name :
  Str.forallb no_sep name = true ->
  Posix.basename (a ++ String Posix.sep name) = name.
Proof.
  intros Hname. induction a as [|x a IH].
  - simpl. by apply basename_no_sep.
  - simpl. destruct (Ascii.eqb x Posix.sep); [done|].
    change (Str.forallb (fun y => negb (Ascii.eqb y Posix.sep)))
      with (Str.forallb no_sep).
    rewrite forallb_app. simpl.
    by rewrite andb_false_r.
Qed.

(** The path of a file joined to the upload directory under a name without
    separator ends in that name. *)
Lemma basename_join_uploads root name :
  Str.forallb no_sep name = true ->
  Posix.basename (Posix.join (Posix.join root "uploads") name) = name.
Proof.
  intros Hname. unfold Posix.join at 1.
  rewrite (no_sep_startswith _ Hname).
  assert (Hu : ∀ r, Posix.join r "uploads" ≠ EmptyString
                    ∧ Str.endswith Posix.sep (Posix.join r "uploads") = false).
  { intros r. unfold Posix.join.
    change (Str.startswith Posix.sep "uploads") with false. cbv iota.
    destruct (negb (Str.truthy r) || Str.endswith Posix.sep r).
    - split; [by destruct r | by rewrite endswith_app].
    - split; [by destruct r|].
      change (String Posix.sep "uploads") with ("/" ++ "uploads").
      by rewrite endswith_app. }
  destruct (Hu root) as [Hne Hend]. rewrite Hend.
  destruct (Posix.join root "uploads") eqn:Hj; [done|]. simpl negb.
  rewrite orb_false_l. cbv iota.
  by apply basename_after_sep.
Qed.

End tokens_and_paths.

(** ** Uploads and the pages that name them *)

Section upload_lemmas.
Implicit Types (w : world) (name url : string).

(** The world after a file was written at [path]. *)
Lemma write_file_eq path w :
  write_file path w
  = (Return tt,
     {| page := page w;
        disk := {| cwd := cwd (disk w);
                   files := {[path]} ∪ files (disk w);
                   denied := denied (disk w) |};
        log := log w |}).
Proof. reflexivity. Qed.

(** The URL of a stored upload resolves to its file. *)
Lemma upload_url_resolves name fs :
  Str.forallb no_sep name = true ->
  Posix.join (Posix.join (cwd fs) "uploads") name ∈ files fs ->
  resolve fs ("/uploads/" ++ name)
  = Some (Posix.join (Posix.join (cwd fs) "uploads") name).
Proof.
  intros Hname Hin. unfold resolve, candidate_cwd.
  change (Str.lstrip "/" ("/uploads/" ++ name)) with ("uploads/" ++ name).
  rewrite <- (join_uploads _ _ (no_sep_startswith _ Hname)).
  by rewrite decide_True.
Qed.

Lemma prefix_truthy p s :
  p ≠ EmptyString -> String.prefix p s = true -> Str.truthy s = true.
Proof. intros Hp. destruct s; [by destruct p | done]. Qed.

Lemma upload_image_eq content_type content urandom w :
  upload_image (Some content_type) content urandom w
  = if String.prefix "image/" content_type then
      let name := Secrets.token_urlsafe urandom ++ image_ext content_type in
      (Return ("/uploads/" ++ name),
       {| page := page w;
          disk := {| cwd := cwd (disk w);
                     files := {[Posix.join (Posix.join (cwd (disk w)) "uploads") name]}
                              ∪ files (disk w);
                     denied := denied (disk w) |};
          log := log w |})
    else (Raise (HTTPException 400 "Only image uploads are allowed"), w).
Proof.
  unfold upload_image.
  destruct (String.prefix "image/" content_type) eqn:Hprefix.
  - rewrite (prefix_truthy "image/" content_type) by done. reflexivity.
  - by rewrite orb_true_r.
Qed.

End upload_lemmas.

(** X7. [upload_image] refuses a part without a content type or with one
    that does not start with [image/], with a 400 and no effect. Otherwise
    it writes one file and returns [/uploads/<name>]: the name is the token
    of the twelve random bytes, sixteen characters among letters, digits,
    [-] and [_], followed by the extension of the table or by nothing; it
    has no separator, so the file lies in the upload directory itself, and
    nothing of the request but its content type enters the name. The store
    is not touched. *)
Theorem upload_image_writes_one_safe_file content_type content urandom w :
  List.length urandom = 12%nat ->
  upload_image None content urandom w
  = (Raise (HTTPException 400 "Only image uploads are allowed"), w)
  ∧ (String.prefix "image/" content_type = false ->
     upload_image (Some content_type) content urandom w
     = (Raise (HTTPException 400 "Only image uploads are allowed"), w))
  ∧ (String.prefix "image/" content_type = true ->
     ∃ name path w',
       upload_image (Some content_type) content urandom w
       = (Return ("/uploads/" ++ name), w')
       ∧ name = Secrets.token_urlsafe urandom ++ image_ext content_type
       ∧ String.length (Secrets.token_urlsafe urandom) = 16%nat
       ∧ Str.forallb url_safe (Secrets.token_urlsafe urandom) = true
       ∧ Str.forallb no_sep name = true
       ∧ path = Posix.join (Posix.join (cwd (disk w)) "uploads") name
       ∧ Posix.basename path = name
       ∧ files (disk w') = {[path]} ∪ files (disk w)
       ∧ page w' = page w ∧ log w' = log w).
Proof.
  intros Hlen. split; [done|]. split.
  - intros Hprefix. by rewrite upload_image_eq, Hprefix.
  - intros Hprefix. rewrite upload_image_eq, Hprefix.
    destruct (token_urlsafe_shape urandom) as [Hsafe Hlength].
    rewrite Hlen in Hlength.
    pose proof (stored_name_no_sep urandom content_type) as Hname.
    eexists _, _, _. split; [done|]. split; [done|].
    split; [exact Hlength|]. split; [done|]. split; [done|].
    split; [done|]. split; [by apply basename_join_uploads|]. done.
Qed.

Lemma upload_image_writes_one_safe_file_witness :
  ∃ w', upload_image (Some "image/png") [x89; x50]%byte
          [x00; x01; x02; x03; x04; x05; x06; x07; x08; x09; x0a; x0b]%byte
          Sample.start
        = (Return "/uploads/AAECAwQFBgcICQoL.png", w')
        ∧ files (disk w')
          = {["/srv/app/uploads/AAECAwQFBgcICQoL.png"]} ∪ files (disk Sample.start).
Proof.
  destruct (upload_image_writes_one_safe_file "image/png" [x89; x50]%byte
              [x00; x01; x02; x03; x04; x05; x06; x07; x08; x09; x0a; x0b]%byte
              Sample.start eq_refl)
    as (_ & _ & Hok).
  destruct (Hok eq_refl) as (name & path & w' & Hup & -> & _ & _ & _ & -> & _ & Hfiles & _).
  exists w'. split; [exact Hup | exact Hfiles].
Defined.

(** X8. The URL that [upload_image] returns, given back as an asset
    reference, resolves to the file that was written, and to no other: the
    removal of that asset undoes the upload, unless the system refuses
    it. *)
Theorem uploaded_url_resolves content_type content urandom w url w1 :
  upload_image content_type content urandom w = (Return url, w1) ->
  ∃ path,
    files (disk w1) = {[path]} ∪ files (disk w)
    ∧ resolve (disk w1) url = Some path
    ∧ (path ∉ denied (disk w) ->
       files (disk (exec (remove_asset url) w1)) = files (disk w) ∖ {[path]}).
Proof.
  destruct content_type as [content_type|]; [|done].
  rewrite upload_image_eq.
  destruct (String.prefix "image/" content_type); [|done].
  intros [= <- <-]. simpl.
  set (name := Secrets.token_urlsafe urandom ++ image_ext content_type).
  set (path := Posix.join (Posix.join (cwd (disk w)) "uploads") name).
  pose proof (stored_name_no_sep urandom content_type) as Hname.
  exists path. split; [done|].
  set (w1 := {| page := page w;
                disk := {| cwd := cwd (disk w);
                           files := {[path]} ∪ files (disk w);
                           denied := denied (disk w) |};
                log := log w |}).
  assert (Hres : resolve (disk w1) ("/uploads/" ++ name) = Some path).
  { apply (upload_url_resolves name (disk w1) Hname). simpl.
    apply elem_of_union_l. by apply elem_of_singleton. }
  split; [done|]. intros Hden.
  unfold exec. rewrite remove_asset_resolve, Hres. simpl.
  rewrite decide_False by done.
  apply set_eq. intros p.
  rewrite !elem_of_difference, elem_of_union. tauto.
Qed.

Lemma uploaded_url_resolves_witness :
  ∃ path,
    resolve
      (disk (exec (upload_image (Some "image/png") [x89; x50]%byte
                     [x00; x01; x02; x03; x04; x05; x06; x07; x08; x09; x0a; x0b]%byte)
               Sample.start))
      "/uploads/AAECAwQFBgcICQoL.png"
    = Some path.
Proof.
  destruct (uploaded_url_resolves (Some "image/png") [x89; x50]%byte
              [x00; x01; x02; x03; x04; x05; x06; x07; x08; x09; x0a; x0b]%byte
              Sample.start "/uploads/AAECAwQFBgcICQoL.png"
              (exec (upload_image (Some "image/png") [x89; x50]%byte
                       [x00; x01; x02; x03; x04; x05; x06; x07; x08; x09; x0a; x0b]%byte)
                 Sample.start) eq_refl)
    as (path & _ & Hres & _).
  exists path. exact Hres.
Defined.

(** X9. The asset references of a page are not confined to the upload
    directory: whatever file the reference names under the working
    directory, the reference without its leading slashes joined to it, is
    removed by the first read of the page at or after its expiry, unless the
    system refuses the removal. *)
Theorem named_file_removed_on_expiry w payload created draws r w1 asset now :
  wf_store (page w) ->
  create_page payload created draws w = (Return r, w1) ->
  asset ∈ or_list (PageCreate.assets payload) ->
  Posix.join (cwd (disk w)) (Str.lstrip "/" asset) ∈ files (disk w) ->
  Posix.join (cwd (disk w)) (Str.lstrip "/" asset) ∉ denied (disk w) ->
  Created.expires_at r <= now ->
  ∃ w2,
    get_page (Created.slug r) now w1 = (Raise (HTTPException 410 "Expired"), w2)
    ∧ (Posix.join (cwd (disk w)) (Str.lstrip "/" asset) ∉ files (disk w2))
    ∧ files (disk w2) ⊆ files (disk w).
Proof.
  intros Hwf Hcreate Hasset Hfile Hden Hle.
  pose proof (step_page (created, CreatePage payload draws) w Hwf) as (Hwf1 & _).
  unfold step, exec in Hwf1. rewrite Hcreate in Hwf1. simpl in Hwf1.
  rewrite create_page_eq in Hcreate.
  destruct (List.find _ _) as [bytes|]; [|done].
  simpl in Hcreate. injection Hcreate as <- <-. simpl in *.
  set (d := new_doc payload created (slug_of_draw 8 bytes) (next_oid (page w))) in *.
  assert (Hd : d ∈ docs (after_insert_one d w)).
  { unfold docs. simpl. apply elem_of_app. right. by apply list_elem_of_singleton. }
  destruct (get_page_expired (Doc.slug d) now (after_insert_one d w) d)
    as (w2 & Hget & (_ & _ & _ & Hsub & _) & Hgone).
  { by apply lookup_stored. }
  { done. }
  exists w2. split; [done|]. split; [|done].
  apply (Hgone asset); [done| |done].
  unfold resolve, candidate_cwd. simpl. by rewrite decide_True.
Qed.

Lemma named_file_removed_on_expiry_witness :
  ∃ w2,
    get_page "aGVsbG8h" 700000000
      (exec (create_page
               {| PageCreate.html := "<p>x</p>";
                  PageCreate.ttl_seconds := None;
                  PageCreate.assets := Some ["//static/logo.png"] |}
               0 [Sample.hello]) Sample.start)
    = (Raise (HTTPException 410 "Expired"), w2)
    ∧ "/srv/app/static/logo.png" ∉ files (disk w2).
Proof.
  assert (Hwf : wf_store (page Sample.start)) by by_evaluation.
  pose (payload := {| PageCreate.html := "<p>x</p>";
                      PageCreate.ttl_seconds := None;
                      PageCreate.assets := Some ["//static/logo.png"] |}).
  pose (r := {| Created.slug := "aGVsbG8h"; Created.url := "/p/aGVsbG8h";
                Created.expires_at := 600000000; Created.ttl_seconds := 600 |}).
  assert (Hcreate : create_page payload 0 [Sample.hello] Sample.start
                    = (Return r, exec (create_page payload 0 [Sample.hello])
                                   Sample.start))
    by (vm_compute; reflexivity).
  destruct (named_file_removed_on_expiry Sample.start payload 0 [Sample.hello]
              r _ "//static/logo.png" 700000000 Hwf Hcreate)
    as (w2 & Hget & Hgone & _).
  - by constructor.
  - by_evaluation.
  - by_evaluation.
  - vm_compute. done.
  - exists w2. split; [exact Hget | exact Hgone].
Defined.

(** ** Mirroring an image *)

Section proxy_lemmas.
Implicit Types (w : world) (chunks : list (list byte)).

Lemma try_remove_returns path w :
  try_except (Os.remove path) (fun _ => ret tt) w
  = (Return tt, after_try_remove path w).
Proof.
  unfold after_try_remove, try_except, Os.remove, bind, emit, raise, ret,
    set_files. simpl.
  by repeat destruct (bool_decide _).
Qed.

Lemma after_try_remove_files path w p :
  p ∈ files (disk (after_try_remove path w)) ->
  p ∈ files (disk w) ∧ (p ≠ path ∨ p ∈ denied (disk w)).
Proof.
  unfold after_try_remove, try_except, Os.remove, bind, emit, raise, ret,
    set_files. simpl.
  destruct (bool_decide (path ∈ files (disk w))) eqn:Hin; simpl.
  - destruct (bool_decide (path ∈ denied (disk w))) eqn:Hden; simpl.
    + apply bool_decide_eq_true_1 in Hden. intros Hp. split; [done|].
      destruct (decide (p = path)) as [->|]; [by right | by left].
    + intros [Hp Hne]%elem_of_difference. split; [done|]. left.
      intros ->. apply Hne. by apply elem_of_singleton.
  - apply bool_decide_eq_false_1 in Hin. intros Hp. split; [done|]. left.
    by intros ->.
Qed.


(** The loop with what the file holds so far: it goes on while the size
    stays within the bound. *)
Lemma copy_chunks_eq filepath size written chunks w :
  size <= max_bytes ->
  copy_chunks filepath size written chunks w
  = if decide (size + Z.of_nat (List.length (concat (until_empty chunks)))
               <= max_bytes)
    then (Return (written ++ concat (until_empty chunks))%list, w)
    else (Raise (HTTPException 413 "Image too large"),
          after_try_remove filepath w).
Proof.
  revert size written.
  induction chunks as [|chunk chunks IH]; intros size written Hsize.
  - simpl. rewrite decide_True by lia. by rewrite app_nil_r.
  - destruct chunk as [|b chunk].
    + simpl. rewrite decide_True by lia. by rewrite app_nil_r.
    + assert (Hlen : List.length (concat (until_empty ((b :: chunk) :: chunks)))
                     = (List.length (b :: chunk)
                        + List.length (concat (until_empty chunks)))%nat).
      { change (until_empty ((b :: chunk) :: chunks))
          with ((b :: chunk) :: until_empty chunks).
        change (concat ((b :: chunk) :: until_empty chunks))
          with ((b :: chunk) ++ concat (until_empty chunks))%list.
        apply length_app. }
      rewrite Hlen.
      change (concat (until_empty ((b :: chunk) :: chunks)))
        with ((b :: chunk) ++ concat (until_empty chunks))%list.
      change (copy_chunks filepath size written ((b :: chunk) :: chunks) w)
        with ((if (max_bytes <? size + Z.of_nat (List.length (b :: chunk)))%Z
               then try_except (Os.remove filepath) (fun _ => ret tt) ;;
                    raise (HTTPException 413 "Image too large")
               else copy_chunks filepath
                      (size + Z.of_nat (List.length (b :: chunk)))
                      (written ++ b :: chunk)%list chunks) w).
      destruct (Z.ltb_spec max_bytes (size + Z.of_nat (List.length (b :: chunk))))
        as [Hover|Hfits].
      * rewrite decide_False by lia.
        by rewrite (bind_return _ _ _ _ _ (try_remove_returns _ _)).
      * rewrite (IH _ _ Hfits).
        destruct (decide (size + Z.of_nat (List.length (b :: chunk))
                          + Z.of_nat (List.length (concat (until_empty chunks)))
                          <= max_bytes)) as [Hle|Hgt].
        -- rewrite decide_True by lia. by rewrite <- app_assoc.
        -- by rewrite decide_False by lia.
Qed.

End proxy_lemmas.
Section proxy_handler.
Implicit Types (w : world) (url : string).

Lemma upload_dir_eq w :
  UPLOAD_DIR w = (Return (Posix.join (cwd (disk w)) "uploads"), w).
Proof. reflexivity. Qed.

(** [proxy_image], case by case. *)
Lemma proxy_image_eq url fetched urandom w :
  proxy_image url fetched urandom w
  = if negb (String.prefix "http://" url || String.prefix "https://" url) then
      (Raise (HTTPException 400 "Invalid URL"), w)
    else
      match fetched with
      | None => (Raise (HTTPException 400 "Could not fetch image"), w)
      | Some r =>
          if negb (Fetched.status_code r =? 200)%Z then
            (Raise (HTTPException 400 "Image not accessible"), w)
          else if negb (String.prefix "image/"
                          (default EmptyString (Fetched.content_type r))) then
            (Raise (HTTPException 400 "URL is not an image"), w)
          else
            let name := Secrets.token_urlsafe urandom
                        ++ image_ext (default EmptyString (Fetched.content_type r)) in
            let path := Posix.join (Posix.join (cwd (disk w)) "uploads") name in
            let w1 := {| page := page w;
                         disk := {| cwd := cwd (disk w);
                                    files := {[path]} ∪ files (disk w);
                                    denied := denied (disk w) |};
                         log := log w |} in
            if decide (Z.of_nat (List.length (concat (until_empty (Fetched.chunks r))))
                       <= max_bytes)
            then (Return ("/uploads/" ++ name), w1)
            else (Raise (HTTPException 413 "Image too large"),
                  after_try_remove path w1)
      end.
Proof.
  unfold proxy_image.
  destruct (negb (String.prefix "http://" url || String.prefix "https://" url));
    [done|].
  destruct fetched as [r|]; [|done].
  destruct (negb (Fetched.status_code r =? 200)%Z); [done|].
  destruct (negb (String.prefix "image/" _)); [done|].
  rewrite (bind_return _ _ _ _ _ (upload_dir_eq _)).
  rewrite (bind_return _ _ _ _ _ (write_file_eq _ _)).
  unfold bind at 1. rewrite copy_chunks_eq by (unfold max_bytes; lia).
  rewrite Z.add_0_l. by destruct (decide _).
Qed.

End proxy_handler.

(** X10. The copy loop of [proxy_image] stops at the first empty chunk and
    keeps the file within 8 MiB: when the chunks before the first empty one
    hold at most 8388608 bytes, the file holds exactly these bytes, in
    order, and nothing else happens; otherwise the loop removes the file,
    swallowing a failure of the removal, and raises the 413. *)
Theorem copy_chunks_caps_size filepath chunks w :
  copy_chunks filepath 0 [] chunks w
  = (if decide (Z.of_nat (List.length (concat (until_empty chunks))) <= 8388608)
     then (Return (concat (until_empty chunks)), w)
     else (Raise (HTTPException 413 "Image too large"),
           after_try_remove filepath w))
  ∧ (∀ data w', copy_chunks filepath 0 [] chunks w = (Return data, w') ->
       Z.of_nat (List.length data) <= 8388608 ∧ w' = w)
  ∧ (∀ p, p ∈ files (disk (after_try_remove filepath w)) ->
       p ∈ files (disk w) ∧ (p ≠ filepath ∨ p ∈ denied (disk w))).
Proof.
  rewrite copy_chunks_eq by (unfold max_bytes; lia).
  rewrite Z.add_0_l. change max_bytes with 8388608.
  split; [done|]. split; [|apply after_try_remove_files].
  intros data w'. destruct (decide _); [|done]. by intros [= <- <-].
Qed.



(** X12. [proxy_image] returns only for a URL that starts with [http://]
    or [https://], fetched with status 200 and a content type that starts
    with [image/], whose chunks up to the first empty one hold at most
    8 MiB; then it has written one file, and the URL it returns resolves,
    as an asset reference, to that file. *)
Theorem proxy_image_returns_stored_url url fetched urandom w u w' :
  proxy_image url fetched urandom w = (Return u, w') ->
  (String.prefix "http://" url = true ∨ String.prefix "https://" url = true)
  ∧ ∃ r path,
      fetched = Some r
      ∧ Fetched.status_code r = 200
      ∧ String.prefix "image/" (default EmptyString (Fetched.content_type r)) = true
      ∧ Z.of_nat (List.length (concat (until_empty (Fetched.chunks r)))) <= 8388608
      ∧ files (disk w') = {[path]} ∪ files (disk w)
      ∧ page w' = page w
      ∧ resolve (disk w') u = Some path.
Proof.
  rewrite proxy_image_eq.
  destruct (String.prefix "http://" url || String.prefix "https://" url) eqn:Hscheme;
    [|done]. simpl negb. cbv iota.
  destruct fetched as [r|]; [|done].
  destruct (Z.eqb_spec (Fetched.status_code r) 200) as [Hstatus|]; [|done].
  simpl negb. cbv iota.
  destruct (String.prefix "image/" _) eqn:Himage; [|done].
  simpl negb. cbv iota. cbv zeta.
  destruct (decide _) as [Hsize|]; [|done].
  intros [= <- <-]. split; [by apply orb_true_iff|].
  set (name := Secrets.token_urlsafe urandom
               ++ image_ext (default EmptyString (Fetched.content_type r))).
  set (path := Posix.join (Posix.join (cwd (disk w)) "uploads") name).
  exists r, path. split; [done|]. split; [done|]. split; [done|].
  split; [exact Hsize|]. split; [done|]. split; [done|].
  apply (upload_url_resolves name
           {| cwd := cwd (disk w);
              files := {[path]} ∪ files (disk w);
              denied := denied (disk w) |}).
  - apply stored_name_no_sep.
  - simpl. apply elem_of_union_l. by apply elem_of_singleton.
Qed.

Lemma proxy_image_returns_stored_url_witness :
  ∃ path,
    resolve
      (disk (exec (proxy_image "https://example.org/a.png"
                     (Some {| Fetched.status_code := 200;
                              Fetched.content_type := Some "image/png";
                              Fetched.chunks := [[x89; x50]; [x4e; x47]; []; [x00]]%byte |})
                     Sample.ones) Sample.start))
      "/uploads/__________8.png"
    = Some path.
Proof.
  pose (r := {| Fetched.status_code := 200;
                Fetched.content_type := Some "image/png";
                Fetched.chunks := [[x89; x50]; [x4e; x47]; []; [x00]]%byte |}).
  assert (Hret : proxy_image "https://example.org/a.png" (Some r) Sample.ones
                   Sample.start
                 = (Return "/uploads/__________8.png",
                    exec (proxy_image "https://example.org/a.png" (Some r)
                            Sample.ones) Sample.start))
    by (vm_compute; reflexivity).
  destruct (proxy_image_returns_stored_url _ _ _ _ _ _ Hret)
    as (_ & r' & path & _ & _ & _ & _ & _ & _ & Hres).
  exists path. exact Hres.
Defined.

(** ** The store after a sweep *)

Section sweep_store.
Implicit Types (w : world) (d : Doc.t) (ds : list Doc.t) (now : Z).

Lemma filter_ext_in (P Q : Doc.t -> Prop) {Pdec : ∀ d, Decision (P d)}
    {Qdec : ∀ d, Decision (Q d)} ds :
  (∀ d, d ∈ ds -> P d <-> Q d) -> filter P ds = filter Q ds.
Proof.
  induction ds as [|a ds IH]; intros Hext; [done|].
  rewrite !filter_cons.
  assert (Ha : P a <-> Q a) by (apply Hext; by left).
  rewrite IH by (intros d Hd; apply Hext; by right).
  destruct (decide (P a)), (decide (Q a)); tauto.
Qed.

Lemma sweep_docs now w :
  wf_store (page w) ->
  docs (exec (cleanup_cycle now) w)
  = filter (fun d => now < Doc.expires_at d) (docs w).
Proof.
  intros (Hids & _). unfold exec. rewrite cleanup_cycle_eq. simpl.
  destruct (sweep_page now w) as [-> _].
  apply filter_ext_in. intros d Hd. split.
  - intros Hid. destruct (decide (Doc.expires_at d <= now)) as [Hle|?]; [|lia].
    exfalso. apply Hid. apply list_elem_of_fmap_2. by apply list_elem_of_filter.
  - intros Hlt (b & Hid & Hb)%list_elem_of_fmap.
    apply list_elem_of_filter in Hb as [Hble Hb].
    rewrite (same_id_same_doc (docs w) d b Hids Hd Hb Hid) in Hlt. lia.
Qed.

End sweep_store.

(** X13. On a store with unique identities, a turn of the sweep at [now]
    leaves exactly the records with [expires_at > now], in their order;
    hence a turn at an earlier time followed by a turn at [now] leaves the
    store that the turn at [now] alone leaves. *)
Theorem sweeps_compose w earlier now :
  wf_store (page w) -> earlier <= now ->
  docs (exec (cleanup_cycle now) w)
  = filter (fun d => now < Doc.expires_at d) (docs w)
  ∧ docs (exec (cleanup_cycle now) (exec (cleanup_cycle earlier) w))
    = docs (exec (cleanup_cycle now) w).
Proof.
  intros Hwf Hle.
  pose proof (step_page (earlier, Sweep) w Hwf) as (Hwf1 & _).
  change (step (earlier, Sweep) w) with (exec (cleanup_cycle earlier) w) in Hwf1.
  rewrite !sweep_docs by done. split; [done|].
  rewrite list_filter_filter. apply filter_ext_in.
  intros d _. split; [tauto | lia].
Qed.

Lemma sweeps_compose_witness :
  docs (exec (cleanup_cycle 61000000)
          (exec (cleanup_cycle 1000000) Sample.stored))
  = docs (exec (cleanup_cycle 61000000) Sample.stored).
Proof.
  assert (Hwf : wf_store (page Sample.stored)) by by_evaluation.
  assert (Hle : 1000000 <= 61000000) by (vm_compute; done).
  exact (proj2 (sweeps_compose Sample.stored 1000000 61000000 Hwf Hle)).
Defined.

Lemma view_page_live_never_renders_witness :
  Html.status (fst (Html.view_page "aGVsbG8h" 1000000 Sample.stored)) = Some 500
  ∧ get_page "aGVsbG8h" 1000000 Sample.stored
    = (Return (page_data Sample.record 1000000), Sample.stored).
Proof.
  assert (Hfind : lookup "aGVsbG8h" Sample.stored = Some Sample.record)
    by (vm_compute; reflexivity).
  assert (Hlt : 1000000 < Doc.expires_at Sample.record) by (vm_compute; done).
  destruct (view_page_live_never_renders "aGVsbG8h" 1000000 Sample.stored
              Sample.record Hfind Hlt)
    as (_ & Hstatus & Hget).
  split; [exact Hstatus | exact Hget].
Defined.

(** An upload, a page that names it, and the read after the expiry: the
    uploaded file is gone, the others are untouched. *)
Example upload_create_expire :
  let w1 := exec (upload_image (Some "image/png") [x89; x50]%byte
                    [x00; x01; x02; x03; x04; x05; x06; x07; x08; x09; x0a; x0b]%byte)
              Sample.start in
  let w2 := exec (create_page
                    {| PageCreate.html := "<img src='/uploads/AAECAwQFBgcICQoL.png'>";
                       PageCreate.ttl_seconds := Some 60;
                       PageCreate.assets := Some ["/uploads/AAECAwQFBgcICQoL.png"] |}
                    0 [Sample.hello]) w1 in
  let w3 := exec (get_page "aGVsbG8h" 60000000) w2 in
  bool_decide ("/srv/app/uploads/AAECAwQFBgcICQoL.png" ∈ files (disk w2)) = true
  ∧ fst (get_page "aGVsbG8h" 60000000 w2) = Raise (HTTPException 410 "Expired")
  ∧ files (disk w3) = files (disk Sample.start).
Proof. vm_compute. done. Qed.
